(** * quality-check.js: the rule engine, the cross-file analyzers and the reporter

    A shallow embedding of [scripts/quality-check.js] (the multi-language
    version: TypeScript/JavaScript, Python, HTML and SQL).

    Conventions of the embedding.
    - A JavaScript string is a [string] holding the bytes of its UTF-8
      encoding.  On ASCII text this is exactly the sequence of UTF-16 code
      units that the script sees; [substring], [length], case mapping and
      the whitespace tests agree with JavaScript there.  Outside ASCII
      they do not: JavaScript counts code units, maps every cased letter
      and knows further white space (U+00A0, U+FEFF, U+2028, ...).  A
      property that depends on one of these is stated for ASCII text
      ([isASCII]).
    - A [RegExp] literal is kept as its syntax tree ([regex]) together with
      its flags; matching is the backtracking matcher of the language
      definition, including the [lastIndex] protocol of global patterns.
    - The only mutable objects of the script are the issue store [ISSUES]
      and the [lastIndex] fields of the module-level pattern tables; both
      live in [State] and are threaded through every function.
    - The file system is a tree ([fsnode]), a snapshot of the disk that
      does not change during the run; a call that throws in Node returns
      [Throw]. *)

From Stdlib Require Import String Ascii List Arith Lia Bool.
From Stdlib Require Import Numbers.DecimalString.
Import ListNotations.
Open Scope list_scope.
Open Scope string_scope.
Open Scope nat_scope.
Set Warnings "-register-all".

(** ** Characters *)

Definition LF : ascii := "010"%char.
Definition CR : ascii := "013"%char.

(** The ASCII WhiteSpace and LineTerminator characters, which [\s] and
    [String.prototype.trim] recognise: TAB, LF, VT, FF, CR, SPACE. *)
Definition isWhiteSpace (c : ascii) : bool :=
  let n := nat_of_ascii c in
  ((9 <=? n) && (n <=? 13)) || (n =? 32).

Definition isLineTerminator (c : ascii) : bool :=
  Ascii.eqb c LF || Ascii.eqb c CR.

Definition isDigit (c : ascii) : bool :=
  let n := nat_of_ascii c in (48 <=? n) && (n <=? 57).

Definition isUpper (c : ascii) : bool :=
  let n := nat_of_ascii c in (65 <=? n) && (n <=? 90).

Definition isLower (c : ascii) : bool :=
  let n := nat_of_ascii c in (97 <=? n) && (n <=? 122).

(** [\w]: letters, digits and the underscore. *)
Definition isWordChar (c : ascii) : bool :=
  isUpper c || isLower c || isDigit c || Ascii.eqb c "_"%char.

(** Case mapping of the ASCII letters; other bytes are left alone. *)
Definition toLowerChar (c : ascii) : ascii :=
  if isUpper c then ascii_of_nat (nat_of_ascii c + 32) else c.

Definition toUpperChar (c : ascii) : ascii :=
  if isLower c then ascii_of_nat (nat_of_ascii c - 32) else c.

(** ** String methods used by the script *)

(** Text made of ASCII characters only, on which the embedding of strings
    is exact. *)
Fixpoint isASCII (s : string) : bool :=
  match s with
  | EmptyString => true
  | String c s' => (nat_of_ascii c <? 128) && isASCII s'
  end.

Fixpoint mapString (f : ascii -> ascii) (s : string) : string :=
  match s with
  | EmptyString => EmptyString
  | String c s' => String (f c) (mapString f s')
  end.

Definition toLowerCase : string -> string := mapString toLowerChar.
Definition toUpperCase : string -> string := mapString toUpperChar.

Fixpoint drop (n : nat) (s : string) : string :=
  match n, s with
  | S n', String _ s' => drop n' s'
  | _, _ => s
  end.

(** [s.substring(0, n)], counted in bytes: code units on ASCII text. *)
Definition take (n : nat) (s : string) : string := substring 0 n s.

Definition startsWith (p s : string) : bool := prefix p s.

(** [s.includes(p)] *)
Fixpoint includes (p s : string) : bool :=
  match s with
  | EmptyString => prefix p EmptyString
  | String _ s' => prefix p s || includes p s'
  end.

(** [s.endsWith(p)] *)
Definition endsWith (p s : string) : bool :=
  let n := String.length s in
  let m := String.length p in
  (m <=? n) && String.eqb (drop (n - m) s) p.

(** [s.replace(p, r)] for a string pattern [p]: the first occurrence only. *)
Fixpoint replace (p r s : string) : string :=
  if prefix p s then r ++ drop (String.length p) s
  else match s with
       | EmptyString => EmptyString
       | String c s' => String c (replace p r s')
       end.

(** [s.split(sep)] for a one-character separator; never returns the empty
    list: [''.split('\n')] is [['']]. *)
Fixpoint split (sep : ascii) (s : string) : list string :=
  match s with
  | EmptyString => [EmptyString]
  | String c s' =>
      if Ascii.eqb c sep then EmptyString :: split sep s'
      else match split sep s' with
           | h :: t => String c h :: t
           | [] => [String c EmptyString]
           end
  end.

(** [arr.pop()] of a non-empty array, as used on the result of [split]. *)
Definition pop (l : list string) : string := last l EmptyString.

Fixpoint trimStart (s : string) : string :=
  match s with
  | String c s' => if isWhiteSpace c then trimStart s' else s
  | EmptyString => EmptyString
  end.

Fixpoint trimEnd (s : string) : string :=
  match s with
  | EmptyString => EmptyString
  | String c s' =>
      let t := trimEnd s' in
      if isWhiteSpace c && String.eqb t EmptyString then EmptyString else String c t
  end.

Definition trim (s : string) : string := trimEnd (trimStart s).

(** [arr.join(sep)] *)
Definition join (sep : string) (l : list string) : string := String.concat sep l.

(** [s.repeat(n)] *)
Fixpoint repeat_string (s : string) (n : nat) : string :=
  match n with
  | O => EmptyString
  | S n' => s ++ repeat_string s n'
  end.

(** Template-literal rendering of a non-negative integer. *)
Definition string_of_nat (n : nat) : string :=
  NilEmpty.string_of_uint (Nat.to_uint n).

(** [[...new Set(l)]]: duplicates removed, first occurrences kept in order. *)
Fixpoint unique_from (seen : list string) (l : list string) : list string :=
  match l with
  | [] => []
  | x :: l' =>
      if existsb (String.eqb x) seen then unique_from seen l'
      else x :: unique_from (x :: seen) l'
  end.

Definition unique (l : list string) : list string := unique_from [] l.

(** ** Regular expressions *)

Inductive class_item : Type :=
| CChar (c : ascii)          (* a literal member          *)
| CSpace                     (* \s                        *)
| CWord                      (* \w                        *)
| CDigit.                    (* \d                        *)

Inductive regex : Type :=
| Empty
| Char (c : ascii)
| Dot                                        (* .           *)
| Class (negated : bool) (items : list class_item)   (* [...] / [^...] / \s \w \d *)
| WordBoundary                               (* \b          *)
| Bol                                        (* ^           *)
| Eol                                        (* $           *)
| Seq (r1 r2 : regex)
| Alt (r1 r2 : regex)
| Star (r : regex)                           (* r*  greedy  *)
| Group (n : nat) (r : regex)                (* capturing group number n *)
| NegLookahead (r : regex).                  (* (?!r)       *)

Definition Plus (r : regex) : regex := Seq r (Star r).      (* r+ *)
Definition Opt (r : regex) : regex := Alt r Empty.          (* r? *)

Fixpoint lit (s : string) : regex :=
  match s with
  | EmptyString => Empty
  | String c EmptyString => Char c
  | String c s' => Seq (Char c) (lit s')
  end.

Fixpoint seq (rs : list regex) : regex :=
  match rs with
  | [] => Empty
  | [r] => r
  | r :: rs' => Seq r (seq rs')
  end.

Fixpoint alt (rs : list regex) : regex :=
  match rs with
  | [] => Empty
  | [r] => r
  | r :: rs' => Alt r (alt rs')
  end.

Definition ws : regex := Class false [CSpace].      (* \s *)
Definition word : regex := Class false [CWord].     (* \w *)
Definition digit : regex := Class false [CDigit].   (* \d *)
Definition oneOf (s : string) : regex :=
  Class false (map CChar (list_ascii_of_string s)).
Definition noneOf (s : string) : regex :=
  Class true (map CChar (list_ascii_of_string s)).

Record Flags : Type := mkFlags
  { global : bool; ignoreCase : bool; multiline : bool }.

Definition no_flags : Flags := mkFlags false false false.
Definition flags_g : Flags := mkFlags true false false.
Definition flags_i : Flags := mkFlags false true false.
Definition flags_gi : Flags := mkFlags true true false.
Definition flags_gm : Flags := mkFlags true false true.

(** Canonicalize: under [i] two characters match when their upper-case
    forms agree. *)
Definition canonicalize (fl : Flags) (c : ascii) : ascii :=
  if ignoreCase fl then toUpperChar c else c.

Definition item_matches (fl : Flags) (x : ascii) (it : class_item) : bool :=
  match it with
  | CChar c => Ascii.eqb (canonicalize fl x) (canonicalize fl c)
  | CSpace => isWhiteSpace x
  | CWord => isWordChar x
  | CDigit => isDigit x
  end.

Definition class_matches (fl : Flags) (negated : bool) (items : list class_item)
    (x : ascii) : bool :=
  xorb negated (existsb (item_matches fl x) items).

Definition captures : Type := list (nat * string).

(** The state of a match attempt: the character before the current
    position (if any), the input from the current position on, and the
    current index. *)
Definition cont (R : Type) : Type :=
  option ascii -> string -> nat -> captures -> option R.

Definition next_is (p : ascii -> bool) (rest : string) : bool :=
  match rest with
  | String c _ => p c
  | EmptyString => false
  end.

Definition prev_is (p : ascii -> bool) (prev : option ascii) : bool :=
  match prev with
  | Some c => p c
  | None => false
  end.

(** The backtracking matcher, in continuation-passing style.  A greedy
    star tries one more iteration first and refuses an iteration that
    consumes nothing; since every accepted iteration consumes a character,
    [S (length rest)] rounds are always enough. *)
Fixpoint rmatch {R : Type} (fl : Flags) (r : regex)
    (prev : option ascii) (rest : string) (i : nat) (caps : captures)
    (k : cont R) {struct r} : option R :=
  match r with
  | Empty => k prev rest i caps
  | Char c =>
      match rest with
      | String x rest' =>
          if Ascii.eqb (canonicalize fl x) (canonicalize fl c)
          then k (Some x) rest' (S i) caps else None
      | EmptyString => None
      end
  | Dot =>
      match rest with
      | String x rest' =>
          if isLineTerminator x then None else k (Some x) rest' (S i) caps
      | EmptyString => None
      end
  | Class negated items =>
      match rest with
      | String x rest' =>
          if class_matches fl negated items x
          then k (Some x) rest' (S i) caps else None
      | EmptyString => None
      end
  | WordBoundary =>
      if xorb (prev_is isWordChar prev) (next_is isWordChar rest)
      then k prev rest i caps else None
  | Bol =>
      match prev with
      | None => k prev rest i caps
      | Some c =>
          if multiline fl && isLineTerminator c then k prev rest i caps else None
      end
  | Eol =>
      match rest with
      | EmptyString => k prev rest i caps
      | String c _ =>
          if multiline fl && isLineTerminator c then k prev rest i caps else None
      end
  | Seq r1 r2 =>
      rmatch fl r1 prev rest i caps
        (fun p s j c => rmatch fl r2 p s j c k)
  | Alt r1 r2 =>
      match rmatch fl r1 prev rest i caps k with
      | Some res => Some res
      | None => rmatch fl r2 prev rest i caps k
      end
  | Star r1 =>
      (fix star (fuel : nat) (prev : option ascii) (rest : string) (i : nat)
           (caps : captures) {struct fuel} : option R :=
         match fuel with
         | O => k prev rest i caps
         | S fuel' =>
             match rmatch fl r1 prev rest i caps
                     (fun p s j c =>
                        if j =? i then None else star fuel' p s j c) with
             | Some res => Some res
             | None => k prev rest i caps
             end
         end) (S (String.length rest)) prev rest i caps
  | Group n r1 =>
      rmatch fl r1 prev rest i caps
        (fun p s j c => k p s j ((n, take (j - i) rest) :: c))
  | NegLookahead r1 =>
      match rmatch fl r1 prev rest i caps (fun _ _ j _ => Some j) with
      | Some _ => None
      | None => k prev rest i caps
      end
  end.

(** The match object returned by [exec]: [index], [match[0]] and the
    numbered groups. *)
Record MatchResult : Type := mkMatch
  { index : nat; matched : string; groups : captures; endIndex : nat }.

Fixpoint lookup_group (n : nat) (c : captures) : option string :=
  match c with
  | [] => None
  | (m, s) :: c' => if m =? n then Some s else lookup_group n c'
  end.

(** [m[n]] for a group that took part in the match. *)
Definition group (n : nat) (m : MatchResult) : string :=
  match lookup_group n (groups m) with
  | Some s => s
  | None => EmptyString
  end.

Definition match_here (fl : Flags) (r : regex) (prev : option ascii)
    (rest : string) (i : nat) : option MatchResult :=
  rmatch fl r prev rest i []
    (fun _ _ j c => Some (mkMatch i (take (j - i) rest) c j)).

(** Leftmost match at or after the current position. *)
Fixpoint search (fl : Flags) (r : regex) (prev : option ascii)
    (rest : string) (i : nat) {struct rest} : option MatchResult :=
  match match_here fl r prev rest i with
  | Some m => Some m
  | None =>
      match rest with
      | EmptyString => None
      | String c rest' => search fl r (Some c) rest' (S i)
      end
  end.

(** Move to index [n] of the input, remembering the previous character. *)
Fixpoint seek (n : nat) (prev : option ascii) (s : string)
    : option (option ascii * string) :=
  match n with
  | O => Some (prev, s)
  | S n' =>
      match s with
      | EmptyString => None
      | String c s' => seek n' (Some c) s'
      end
  end.

(** RegExpBuiltinExec: the result and the new value of [lastIndex].  A
    pattern without [g] starts at 0 and leaves [lastIndex] alone; a global
    one starts at [lastIndex], stores the end of the match there, and
    resets it to 0 on failure. *)
Definition exec (fl : Flags) (r : regex) (lastIndex : nat) (s : string)
    : option MatchResult * nat :=
  let start := if global fl then lastIndex else 0 in
  match seek start None s with
  | None => (None, if global fl then 0 else lastIndex)
  | Some (prev, rest) =>
      match search fl r prev rest start with
      | Some m => (Some m, if global fl then endIndex m else lastIndex)
      | None => (None, if global fl then 0 else lastIndex)
      end
  end.

Definition isSome {A : Type} (o : option A) : bool :=
  match o with Some _ => true | None => false end.

(** [re.test(s)] *)
Definition test (fl : Flags) (r : regex) (lastIndex : nat) (s : string)
    : bool * nat :=
  let '(m, li) := exec fl r lastIndex s in (isSome m, li).

(** [re.test(s)] and [s.match(re)] on a RegExp literal evaluated in place:
    the object is fresh, so [lastIndex] is 0 and its new value is dropped. *)
Definition test_fresh (fl : Flags) (r : regex) (s : string) : bool :=
  fst (test fl r 0 s).

Definition match_fresh (fl : Flags) (r : regex) (s : string)
    : option MatchResult :=
  fst (exec fl r 0 s).

(** [s.match(re)] for a global pattern: every match in turn, stepping over
    an empty match.  Each round moves [lastIndex] forward, so
    [length s + 2] rounds reach the failing [exec] that ends the loop. *)
Fixpoint matchAll_from (fuel : nat) (fl : Flags) (r : regex) (lastIndex : nat)
    (s : string) : list string :=
  match fuel with
  | O => []
  | S fuel' =>
      match exec fl r lastIndex s with
      | (Some m, li) =>
          matched m ::
          matchAll_from fuel' fl r
            (if String.eqb (matched m) EmptyString then S li else li) s
      | (None, _) => []
      end
  end.

Definition matchAll (fl : Flags) (r : regex) (s : string) : list string :=
  matchAll_from (S (S (String.length s))) fl r 0 s.

(** [while ((match = re.exec(s)) !== null) { ... }] on a fresh global
    pattern: the match objects in the order the loop body sees them.  The
    loop is run for at most [fuel] rounds. *)
Fixpoint execAll_from (fuel : nat) (fl : Flags) (r : regex) (lastIndex : nat)
    (s : string) : list MatchResult :=
  match fuel with
  | O => []
  | S fuel' =>
      match exec fl r lastIndex s with
      | (Some m, li) => m :: execAll_from fuel' fl r li s
      | (None, _) => []
      end
  end.

Definition execAll (fl : Flags) (r : regex) (s : string) : list MatchResult :=
  execAll_from (S (String.length s)) fl r 0 s.

(** [s.replace(re, r)] for a pattern without [g]: the first match only. *)
Definition replace_regex (fl : Flags) (r : regex) (rep s : string) : string :=
  match match_fresh fl r s with
  | Some m => take (index m) s ++ rep ++ drop (endIndex m) s
  | None => s
  end.

(** ** Paths (Node's [path] module) *)

Definition slash : ascii := "/"%char.

Fixpoint stripTrailingSlashes (s : string) : string :=
  match s with
  | EmptyString => EmptyString
  | String c s' =>
      let t := stripTrailingSlashes s' in
      if Ascii.eqb c slash && String.eqb t EmptyString then EmptyString
      else String c t
  end.

Fixpoint lastIndexOf (c : ascii) (s : string) : option nat :=
  match s with
  | EmptyString => None
  | String x s' =>
      match lastIndexOf c s' with
      | Some n => Some (S n)
      | None => if Ascii.eqb x c then Some 0 else None
      end
  end.

(** [path.extname]: from the last dot of the last path segment to its end;
    empty when there is no dot, when the dot starts the segment, and for
    the segment [..]. *)
Definition extname (p : string) : string :=
  let base := pop (split slash (stripTrailingSlashes p)) in
  match lastIndexOf "."%char base with
  | None => EmptyString
  | Some O => EmptyString
  | Some d => if String.eqb base ".." then EmptyString else drop d base
  end.

(** [path.join(dir, name)] for a normalised directory path and the name of
    one of its entries. *)
Definition path_join (dir name : string) : string :=
  if endsWith "/" dir then dir ++ name else dir ++ "/" ++ name.

(** ** Errors and the file system *)

(** A thrown [Error]; the script only ever reads its [message]. *)
Inductive error : Type := Error (msg : string).

Definition error_message (e : error) : string := let 'Error m := e in m.

Inductive result (A : Type) : Type :=
| Ok (a : A)
| Throw (e : error).
Arguments Ok {A} a.
Arguments Throw {A} e.

(** What lives at a path.
    - [File c]: a regular file; [c] is what [readFileSync] does on it.
    - [Dir entries]: a directory and what [readdirSync] lists, in order.
    - [Locked e]: a directory that cannot be listed: [statSync] reports a
      directory and [readdirSync] throws [e]; what it holds is out of
      reach.
    - [Gone]: nothing is there: [existsSync] is false and [statSync]
      throws.  As the root it is a project root that does not exist; as
      an entry it is a name that [readdirSync] lists although nothing can
      be reached through it, such as a symbolic link whose target is
      missing. *)
Inductive fsnode : Type :=
| File (content : result string)
| Dir (entries : list (string * fsnode))
| Locked (e : error)
| Gone.

Fixpoint find_entry (name : string) (entries : list (string * fsnode))
    : option fsnode :=
  match entries with
  | [] => None
  | (n, node) :: entries' =>
      if String.eqb n name then Some node else find_entry name entries'
  end.

Fixpoint walk (node : fsnode) (segments : list string) : option fsnode :=
  match segments with
  | [] => Some node
  | seg :: segments' =>
      match node with
      | Dir entries =>
          match find_entry seg entries with
          | Some child => walk child segments'
          | None => None
          end
      | _ => None
      end
  end.

(** The run's view of the disk: the resolved project root and the tree
    found there. *)
Record World : Type := mkWorld
  { projectRoot : string; tree : fsnode }.

Definition resolve_path (w : World) (p : string) : option fsnode :=
  if String.eqb p (projectRoot w) then Some (tree w)
  else
    let base := if endsWith "/" (projectRoot w) then projectRoot w
                else projectRoot w ++ "/" in
    if prefix base p then walk (tree w) (split slash (drop (String.length base) p))
    else None.

Definition existsSync (w : World) (p : string) : bool :=
  match resolve_path w p with
  | Some Gone | None => false
  | Some _ => true
  end.

Definition readFileSync (w : World) (p : string) : result string :=
  match resolve_path w p with
  | Some (File c) => c
  | Some (Dir _) | Some (Locked _) =>
      Throw (Error "EISDIR: illegal operation on a directory, read")
  | _ =>
      Throw (Error ("ENOENT: no such file or directory, open '" ++ p ++ "'"))
  end.

(** The error of [statSync] on a path at which nothing is found. *)
Definition statSync_ENOENT (p : string) : error :=
  Error ("ENOENT: no such file or directory, stat '" ++ p ++ "'").

(** ** Data model *)

Inductive Severity : Type := critical | high | medium | low | info.

(** One reported issue: the object literals pushed onto [ISSUES]. *)
Record Finding : Type := mkFinding
  { file : string; line : nat; message : string; code : string }.

(** [ISSUES]: one array per severity, in insertion order. *)
Record IssueStore : Type := mkIssues
  { critical_issues : list Finding;
    high_issues : list Finding;
    medium_issues : list Finding;
    low_issues : list Finding;
    info_issues : list Finding }.

Definition bucket (sev : Severity) (store : IssueStore) : list Finding :=
  match sev with
  | critical => critical_issues store
  | high => high_issues store
  | medium => medium_issues store
  | low => low_issues store
  | info => info_issues store
  end.

(** [ISSUES[sev].push(f)] *)
Definition push (sev : Severity) (f : Finding) (store : IssueStore) : IssueStore :=
  match sev with
  | critical =>
      mkIssues (critical_issues store ++ [f])%list (high_issues store)
        (medium_issues store) (low_issues store) (info_issues store)
  | high =>
      mkIssues (critical_issues store) (high_issues store ++ [f])%list
        (medium_issues store) (low_issues store) (info_issues store)
  | medium =>
      mkIssues (critical_issues store) (high_issues store)
        (medium_issues store ++ [f])%list (low_issues store) (info_issues store)
  | low =>
      mkIssues (critical_issues store) (high_issues store) (medium_issues store)
        (low_issues store ++ [f])%list (info_issues store)
  | info =>
      mkIssues (critical_issues store) (high_issues store) (medium_issues store)
        (low_issues store) (info_issues store ++ [f])%list
  end.

Definition empty_issues : IssueStore := mkIssues [] [] [] [] [].

(** A line rule: [{ pattern, severity, message }].  The pattern is the
    immutable part of the RegExp object; its [lastIndex] is in [State]. *)
Module Rule.
Record t : Type := make
  { pattern : regex; flags : Flags; severity : Severity; message : string }.
End Rule.

(** ** Configuration and pattern tables *)

Definition MAX_FILE_SIZE : nat := 500.
Definition MAX_COMPONENT_SIZE : nat := 300.

Definition SUPPORTED_EXTENSIONS : list string :=
  [".ts"; ".tsx"; ".js"; ".jsx"; ".py"; ".html"; ".htm"; ".sql"].

Definition SKIPPED_DIRECTORIES : list string :=
  ["node_modules"; "dist"; "build"; ".git"; "scripts"; ".next"; ".nuxt";
   "coverage"; ".vscode"; ".idea"].

(** [arr.includes(s)] *)
Definition array_includes (arr : list string) (s : string) : bool :=
  existsb (String.eqb s) arr.

Definition quote : string := String (ascii_of_nat 34) EmptyString.
Definition quotes : regex := Class false [CChar "'"%char; CChar (ascii_of_nat 34)].
Definition not_quotes : regex := Class true [CChar "'"%char; CChar (ascii_of_nat 34)].

Definition todo_pattern : regex :=
  alt [lit "TODO"; lit "FIXME"; lit "HACK"; lit "XXX"].

Definition TS_JS_PATTERNS : list Rule.t :=
  [ Rule.make (lit "dangerouslySetInnerHTML") flags_g critical
      "XSS vulnerability: dangerouslySetInnerHTML without sanitization";
    Rule.make
      (seq [Char ":"; Star ws; lit "any";
            Group 1 (alt [Char "["; ws; Char ";"; Char ")"])])
      flags_g high "Type safety issue: any type used";
    Rule.make (lit "console.log(") flags_g medium
      "console.log found (use proper logging)";
    Rule.make todo_pattern flags_g low "TODO/FIXME comment found" ].

Definition PYTHON_PATTERNS : list Rule.t :=
  [ Rule.make (seq [WordBoundary; lit "eval"; Star ws; Char "("]) flags_g critical
      "Security risk: eval() can execute arbitrary code";
    Rule.make (seq [WordBoundary; lit "exec"; Star ws; Char "("]) flags_g critical
      "Security risk: exec() can execute arbitrary code";
    Rule.make
      (seq [WordBoundary; lit "pickle.load"; Opt (Char "s"); Star ws; Char "("])
      flags_g critical
      "Security risk: pickle.load() can execute arbitrary code. Use json or validate input";
    Rule.make (seq [WordBoundary; lit "print"; Star ws; Char "("]) flags_g medium
      "print() found (use logging module for production code)";
    Rule.make (seq [WordBoundary; lit "Any"; WordBoundary]) flags_g high
      "Type safety: Any type used (from typing). Prefer specific types";
    Rule.make todo_pattern flags_g low "TODO/FIXME comment found" ].

Definition HTML_PATTERNS : list Rule.t :=
  [ Rule.make
      (seq [lit "<script"; Star (noneOf ">"); Char ">";
            NegLookahead (Seq (Star Dot) (lit "nonce"));
            NegLookahead (Seq (Star Dot) (lit "CSP"));
            Star (noneOf "<"); lit "</script>"])
      flags_gi critical "Inline script without nonce/CSP protection (XSS risk)";
    Rule.make (seq [lit "onclick"; Star ws; Char "="]) flags_gi high
      "Inline event handler (onclick) - XSS risk. Use addEventListener instead";
    Rule.make
      (alt [seq [lit "onerror"; Star ws; Char "="];
            seq [lit "onload"; Star ws; Char "="];
            seq [lit "onmouseover"; Star ws; Char "="]])
      flags_gi high "Inline event handler - XSS risk. Use addEventListener instead";
    Rule.make
      (seq [lit "<img"; Star (noneOf ">");
            NegLookahead (Seq (Star Dot) (lit "alt="));
            Star (noneOf ">"); Char ">"])
      flags_gi medium "Image missing alt attribute (accessibility issue)";
    Rule.make
      (seq [lit "<style"; Star (noneOf ">"); Char ">";
            NegLookahead (Seq (Star Dot) (lit "nonce"));
            Star (noneOf "<"); lit "</style>"])
      flags_gi medium "Inline styles without nonce/CSP protection";
    Rule.make (lit "javascript:") flags_gi critical
      "javascript: protocol in href/src (XSS risk)";
    Rule.make todo_pattern flags_g low "TODO/FIXME comment found" ].

(** Two quote characters around a plus sign, with optional blanks. *)
Definition quote_concat : regex :=
  seq [quotes; Star ws; Char "+"; Star ws; quotes].

(** An equals sign followed by a non-empty quoted text. *)
Definition quoted_assignment : regex :=
  seq [Star ws; Char "="; Star ws; quotes; Plus not_quotes; quotes].

Definition SQL_PATTERNS : list Rule.t :=
  [ Rule.make
      (seq [lit "SELECT"; Plus ws; Star Dot; Plus ws; lit "FROM"; Plus ws;
            Star Dot; Plus ws; lit "WHERE"; Plus ws; Star Dot; quote_concat])
      flags_gi critical
      "SQL injection risk: String concatenation in WHERE clause. Use parameterized queries";
    Rule.make
      (seq [lit "INSERT"; Plus ws; lit "INTO"; Plus ws; Star Dot; Plus ws;
            lit "VALUES"; Star ws; Char "("; Star (noneOf ")"); quote_concat])
      flags_gi critical
      "SQL injection risk: String concatenation in INSERT. Use parameterized queries";
    Rule.make
      (seq [lit "UPDATE"; Plus ws; Star Dot; Plus ws; lit "SET"; Plus ws;
            Star Dot; quote_concat])
      flags_gi critical
      "SQL injection risk: String concatenation in UPDATE. Use parameterized queries";
    Rule.make (seq [lit "password"; quoted_assignment]) flags_gi critical
      "Hardcoded password found. Use environment variables or secure config";
    Rule.make
      (seq [alt [lit "password"; lit "pwd"; lit "passwd"]; quoted_assignment])
      flags_gi critical "Hardcoded credentials found. Use environment variables";
    Rule.make (seq [lit "SELECT"; Plus ws; Char "*"; Plus ws; lit "FROM"])
      flags_gi medium "SELECT * found. Consider specifying columns explicitly";
    Rule.make todo_pattern flags_g low "TODO/FIXME comment found" ].

(** ** The mutable state of a run *)

(** [ISSUES] and, for each pattern table, the [lastIndex] of the RegExp
    object of every rule, in table order. *)
Record State : Type := mkState
  { ISSUES : IssueStore;
    ts_js_lastIndex : list nat;
    python_lastIndex : list nat;
    html_lastIndex : list nat;
    sql_lastIndex : list nat }.

Definition initial_state : State :=
  mkState empty_issues
    (map (fun _ => 0) TS_JS_PATTERNS) (map (fun _ => 0) PYTHON_PATTERNS)
    (map (fun _ => 0) HTML_PATTERNS) (map (fun _ => 0) SQL_PATTERNS).

Definition set_issues (st : State) (store : IssueStore) : State :=
  mkState store (ts_js_lastIndex st) (python_lastIndex st)
    (html_lastIndex st) (sql_lastIndex st).

Definition report (sev : Severity) (f : Finding) (st : State) : State :=
  set_issues st (push sev f (ISSUES st)).

(** The table a file is checked against. *)
Inductive Table : Type := TS_JS | PYTHON | HTML | SQL.

Definition rules_of (t : Table) : list Rule.t :=
  match t with
  | TS_JS => TS_JS_PATTERNS
  | PYTHON => PYTHON_PATTERNS
  | HTML => HTML_PATTERNS
  | SQL => SQL_PATTERNS
  end.

Definition lastIndex_of (t : Table) (st : State) : list nat :=
  match t with
  | TS_JS => ts_js_lastIndex st
  | PYTHON => python_lastIndex st
  | HTML => html_lastIndex st
  | SQL => sql_lastIndex st
  end.

Definition set_lastIndex (t : Table) (l : list nat) (st : State) : State :=
  match t with
  | TS_JS => mkState (ISSUES st) l (python_lastIndex st) (html_lastIndex st)
               (sql_lastIndex st)
  | PYTHON => mkState (ISSUES st) (ts_js_lastIndex st) l (html_lastIndex st)
                (sql_lastIndex st)
  | HTML => mkState (ISSUES st) (ts_js_lastIndex st) (python_lastIndex st) l
              (sql_lastIndex st)
  | SQL => mkState (ISSUES st) (ts_js_lastIndex st) (python_lastIndex st)
             (html_lastIndex st) l
  end.

(** ** Helper functions of the script *)

(** [getAllFiles(dir, fileList)]: [node] is what the disk holds at [dir].
    The guard [existsSync] answers for [dir] itself; [readdirSync] throws
    on a regular file and on a directory that cannot be listed.  Each
    listed entry goes through [statSync] first, which throws when nothing
    is found under the name; the recursion only descends into entries that
    [statSync] reports as directories. *)
Fixpoint getAllFiles (dir : string) (node : fsnode) (fileList : list string)
    {struct node} : result (list string) :=
  match node with
  | Gone => Ok fileList
  | File _ => Throw (Error ("ENOTDIR: not a directory, scandir '" ++ dir ++ "'"))
  | Locked e => Throw e
  | Dir entries =>
      (fix each (files : list (string * fsnode)) (fileList : list string)
           {struct files} : result (list string) :=
         match files with
         | [] => Ok fileList
         | (file, child) :: files' =>
             let filePath := path_join dir file in
             match child with
             | Gone => Throw (statSync_ENOENT filePath)
             | File _ =>
                 if array_includes SUPPORTED_EXTENSIONS (extname file)
                 then each files' (fileList ++ [filePath])%list
                 else each files' fileList
             | Dir _ | Locked _ =>
                 if negb (array_includes SKIPPED_DIRECTORIES file)
                 then match getAllFiles filePath child fileList with
                      | Ok fileList' => each files' fileList'
                      | Throw e => Throw e
                      end
                 else each files' fileList
             end
         end) entries fileList
  end.

Definition countLines (w : World) (filePath : string) : nat :=
  match readFileSync w filePath with
  | Ok content => List.length (split LF content)
  | Throw _ => 0
  end.

Definition getFileExtension (filePath : string) : string :=
  toLowerCase (extname filePath).

(** [getPatternsForFile]: [None] is the fresh empty array of the last
    [return]. *)
Definition getPatternsForFile (filePath : string) : option Table :=
  let ext := getFileExtension filePath in
  if array_includes [".ts"; ".tsx"; ".js"; ".jsx"] ext then Some TS_JS
  else if String.eqb ext ".py" then Some PYTHON
  else if array_includes [".html"; ".htm"] ext then Some HTML
  else if String.eqb ext ".sql" then Some SQL
  else None.

(** [lines.forEach((line, index) => ...)] over a state. *)
Fixpoint forEach_indexed {A S : Type} (f : A -> nat -> S -> S) (l : list A)
    (index : nat) (st : S) : S :=
  match l with
  | [] => st
  | x :: l' => forEach_indexed f l' (index + 1) (f x index st)
  end.

(** ** Structural checks *)

(** A [def] at the start of the line, the function name (group 1), the
    parameter list between parentheses (group 2) and a colon. *)
Definition functionDefRegex : regex :=
  seq [Bol; lit "def"; Plus ws; Group 1 (Plus word); Star ws; Char "(";
       Group 2 (Star (noneOf ")")); Char ")"; Star ws; Char ":"].

Definition checkPythonFile (filePath relativePath content : string)
    (lines : list string) (st : State) : State :=
  let st :=
    forEach_indexed
      (fun line index st =>
         match match_fresh no_flags functionDefRegex line with
         | Some m =>
             let params := group 2 m in
             let hasParamTypeHints :=
               test_fresh no_flags (seq [Char ":"; Star ws; Plus word]) params in
             let hasReturnTypeHint := includes "->" line in
             if hasParamTypeHints && negb hasReturnTypeHint
             then report medium
                    (mkFinding relativePath (index + 1)
                       ("Function '" ++ group 1 m ++
                        "' has parameter type hints but missing return type hint. Consider adding -> ReturnType")
                       (take 80 (trim line))) st
             else st
         | None => st
         end)
      lines 0 st in
  let hasLogging :=
    includes "import logging" content || includes "from logging" content in
  let hasPrint := includes "print(" content in
  if hasPrint && negb hasLogging
  then report medium
         (mkFinding relativePath 1
            "print() statements found but logging module not imported. Use logging.getLogger() instead"
            "import logging") st
  else st.

(** /<img[^>]*>/gi *)
Definition imgTagRegex : regex :=
  seq [lit "<img"; Star (noneOf ">"); Char ">"].

(** /alt\s*=/i *)
Definition altRegex : regex := seq [lit "alt"; Star ws; Char "="].

(** The attribute [name] with a quoted, non-empty value captured as
    group 1: [id\s*=\s*...] and [for\s*=\s*...]. *)
Definition attrRegex (name : string) : regex :=
  seq [lit name; Star ws; Char "="; Star ws; quotes;
       Group 1 (Plus not_quotes); quotes].

(** [<input[^>]*id...[^>]*>] and [<label[^>]*for...[^>]*>], both /gi. *)
Definition tagWithAttrRegex (tag name : string) : regex :=
  seq [lit tag; Star (noneOf ">"); attrRegex name; Star (noneOf ">"); Char ">"].

(** [set.add(x)] on a [Set] kept in insertion order. *)
Definition set_add (x : string) (s : list string) : list string :=
  if array_includes s x then s else (s ++ [x])%list.

(** The ids (or label targets) collected by one of the two [while] loops. *)
Definition collect_attr (tag name content : string) : list string :=
  fold_left
    (fun acc m =>
       match match_fresh flags_i (attrRegex name) (matched m) with
       | Some am => set_add (group 1 am) acc
       | None => acc
       end)
    (execAll flags_gi (tagWithAttrRegex tag name) content) [].

Definition checkHTMLFile (filePath relativePath content : string)
    (lines : list string) (st : State) : State :=
  let st :=
    if negb (startsWith "<!doctype" (toLowerCase (trim content)))
    then report low
           (mkFinding relativePath 1 "HTML file missing DOCTYPE declaration"
              "<!DOCTYPE html>") st
    else st in
  let st :=
    fold_left
      (fun st m =>
         let imgTag := matched m in
         if negb (test_fresh flags_i altRegex imgTag)
         then
           let beforeMatch := take (index m) content in
           let lineNumber := List.length (split LF beforeMatch) in
           report medium
             (mkFinding relativePath lineNumber
                "Image missing alt attribute (accessibility issue)"
                (take 80 imgTag)) st
         else st)
      (execAll flags_gi imgTagRegex content) st in
  let inputIds := collect_attr "<input" "id" content in
  let labelFors := collect_attr "<label" "for" content in
  fold_left
    (fun st id =>
       if negb (array_includes labelFors id)
       then report medium
              (mkFinding relativePath 1
                 ("Input with id=" ++ quote ++ id ++ quote ++
                  " missing corresponding label (accessibility issue)")
                 ("<label for=" ++ quote ++ id ++ quote ++ ">...</label>")) st
       else st)
    inputIds st.

Definition checkSQLFile (filePath relativePath content : string)
    (lines : list string) (st : State) : State :=
  let hasParameterized :=
    test_fresh no_flags
      (alt [Seq (oneOf "?$") (Plus digit);
            Seq (Char ":") (Plus word);
            lit "%s";
            seq [lit "%("; Plus word; lit ")s"]]) content in
  let hasStringConcat := test_fresh no_flags quote_concat content in
  let st :=
    if hasStringConcat && negb hasParameterized
    then report critical
           (mkFinding relativePath 1
              "SQL file contains string concatenation but no parameterized queries detected. High SQL injection risk."
              "Use parameterized queries: ? placeholders, named parameters, or prepared statements")
           st
    else st in
  let st :=
    if test_fresh flags_gi
         (seq [lit "DROP"; Plus ws; Group 1 (Alt (lit "TABLE") (lit "DATABASE"))])
         content
       && negb (test_fresh flags_gi (seq [lit "IF"; Plus ws; lit "EXISTS"]) content)
    then report high
           (mkFinding relativePath 1
              "DROP statement without IF EXISTS clause. Consider adding safety checks."
              "DROP TABLE IF EXISTS ...") st
    else st in
  let hasTransactions :=
    test_fresh flags_gi
      (alt [seq [lit "BEGIN"; Plus ws; lit "TRANSACTION"];
            seq [lit "START"; Plus ws; lit "TRANSACTION"];
            lit "COMMIT"; lit "ROLLBACK"]) content in
  let hasMultipleStatements :=
    1 <? List.length (matchAll flags_gm (seq [Char ";"; Star ws; Eol]) content) in
  if hasMultipleStatements && negb hasTransactions
  then report medium
         (mkFinding relativePath 1
            "Multiple SQL statements found without explicit transaction handling"
            "Wrap in BEGIN TRANSACTION ... COMMIT") st
  else st.

(** ** The rule engine *)

(** [patterns.forEach(({ pattern, severity, message }) => ...)] on one
    line: every rule's RegExp is tested from its own [lastIndex], which the
    test updates. *)
Fixpoint applyPatterns (rules : list Rule.t) (lastIndexes : list nat)
    (relativePath line : string) (index : nat) (store : IssueStore)
    : list nat * IssueStore :=
  match rules with
  | [] => ([], store)
  | r :: rules' =>
      let '(found, li) :=
        test (Rule.flags r) (Rule.pattern r) (hd 0 lastIndexes) line in
      let store :=
        if found
        then push (Rule.severity r)
               (mkFinding relativePath (index + 1) (Rule.message r)
                  (take 80 (trim line))) store
        else store in
      let '(lis, store) :=
        applyPatterns rules' (tl lastIndexes) relativePath line index store in
      (li :: lis, store)
  end.

Definition checkLine (t : Table) (relativePath line : string) (index : nat)
    (st : State) : State :=
  let '(lis, store) :=
    applyPatterns (rules_of t) (lastIndex_of t st) relativePath line index
      (ISSUES st) in
  set_issues (set_lastIndex t lis st) store.

Definition checkFile (w : World) (filePath : string) (st : State)
    : result State :=
  let relativePath := replace (projectRoot w ++ "/") "" filePath in
  match readFileSync w filePath with
  | Throw e => Throw e
  | Ok content =>
      let lines := split LF content in
      let lineCount := List.length lines in
      let ext := getFileExtension filePath in
      let st :=
        if MAX_FILE_SIZE <? lineCount
        then report high
               (mkFinding relativePath 1
                  ("File is too large (" ++ string_of_nat lineCount ++
                   " lines). Consider splitting. Max recommended: " ++
                   string_of_nat MAX_FILE_SIZE ++ " lines")
                  (take 50 (hd EmptyString lines) ++ "...")) st
        else st in
      let st :=
        if endsWith ".tsx" filePath && (MAX_COMPONENT_SIZE <? lineCount)
        then report medium
               (mkFinding relativePath 1
                  ("Component is large (" ++ string_of_nat lineCount ++
                   " lines). Consider extracting logic into custom hooks. Max recommended: " ++
                   string_of_nat MAX_COMPONENT_SIZE ++ " lines")
                  (take 50 (hd EmptyString lines) ++ "...")) st
        else st in
      let st :=
        match getPatternsForFile filePath with
        | Some t => forEach_indexed (checkLine t relativePath) lines 0 st
        | None => st
        end in
      Ok (if String.eqb ext ".py"
          then checkPythonFile filePath relativePath content lines st
          else if array_includes [".html"; ".htm"] ext
          then checkHTMLFile filePath relativePath content lines st
          else if String.eqb ext ".sql"
          then checkSQLFile filePath relativePath content lines st
          else st)
  end.

(** [files.forEach(checkFile)]: the first exception ends the loop. *)
Fixpoint checkFiles (w : World) (files : list string) (st : State)
    : result State :=
  match files with
  | [] => Ok st
  | f :: files' =>
      match checkFile w f st with
      | Ok st' => checkFiles w files' st'
      | Throw e => Throw e
      end
  end.

(** ** Cross-file analyzers *)

(** A [Map] from base names to arrays of paths, in insertion order. *)
Fixpoint map_push (key value : string) (m : list (string * list string))
    : list (string * list string) :=
  match m with
  | [] => [(key, [value])]
  | (k, vs) :: m' =>
      if String.eqb k key then (k, (vs ++ [value])%list) :: m'
      else (k, vs) :: map_push key value m'
  end.

Definition isServiceFile (f : string) : bool :=
  includes "Service." f || includes "service." f ||
  includes "_service." f || includes "_Service." f.

(** /\.(ts|tsx|js|jsx|py)$/ *)
Definition sourceExtRegex : regex :=
  seq [Char ".";
       Group 1 (alt [lit "ts"; lit "tsx"; lit "js"; lit "jsx"; lit "py"]); Eol].

Definition serviceBaseName (f : string) : string :=
  toLowerCase (replace_regex no_flags sourceExtRegex "" (pop (split slash f))).

Definition serviceMap (serviceFiles : list string) : list (string * list string) :=
  fold_left (fun m f => map_push (serviceBaseName f) f m) serviceFiles [].

(** The body of [serviceMap.forEach((files, baseName) => ...)]. *)
Definition checkServiceGroup (root : string) (entry : string * list string)
    (st : State) : State :=
  let files := snd entry in
  if 1 <? List.length files
  then
    let uniqueFiles := unique (map (replace (root ++ "/") "") files) in
    if 1 <? List.length uniqueFiles
    then report critical
           (mkFinding "services/" 0
              ("Potential duplicate service files detected: " ++
               join ", " uniqueFiles)
              "Consider consolidating into a single service file") st
    else st
  else st.

Definition checkForDuplicates (w : World) (st : State) : result State :=
  match getAllFiles (projectRoot w) (tree w) [] with
  | Throw e => Throw e
  | Ok files =>
      let serviceFiles := filter isServiceFile files in
      Ok (fold_left (fun st entry => checkServiceGroup (projectRoot w) entry st)
            (serviceMap serviceFiles) st)
  end.

Definition isTestFile (f : string) : bool :=
  includes ".test." f || includes ".spec." f ||
  includes "__tests__" f || includes "__test__" f.

Definition checkForTests (w : World) (st : State) : result State :=
  match getAllFiles (projectRoot w) (tree w) [] with
  | Throw e => Throw e
  | Ok files =>
      let testFiles := filter isTestFile files in
      Ok (if List.length testFiles =? 0
          then report high
                 (mkFinding "project" 0
                    "No test files found. Consider adding tests for critical functionality."
                    "Set up Vitest, Jest, or your preferred testing framework") st
          else st)
  end.

(** *** The package manifest *)

(** The values [JSON.parse] returns.  A number is a double, of which the
    script observes only whether it is zero; an object keeps one value per
    key. *)
Inductive json : Type :=
| JNull
| JBool (b : bool)
| JNumber (nonzero : bool)
| JString (s : string)
| JArray (elements : list json)
| JObject (members : list (string * json)).

Fixpoint get_member (key : string) (members : list (string * json))
    : option json :=
  match members with
  | [] => None
  | (k, v) :: members' =>
      if String.eqb k key then Some v else get_member key members'
  end.

(** [v.key] on a value that is neither [null] nor [undefined]; [None] is
    [undefined]. *)
Definition get_property (v : json) (key : string) : option json :=
  match v with
  | JObject members => get_member key members
  | _ => None
  end.

(** [v?.key] where [v] may be [undefined] ([None]) or [null]. *)
Definition optional_property (v : option json) (key : string) : option json :=
  match v with
  | None | Some JNull => None
  | Some v' => get_property v' key
  end.

(** ToBoolean *)
Definition truthy (v : option json) : bool :=
  match v with
  | None | Some JNull => false
  | Some (JBool b) => b
  | Some (JNumber nonzero) => nonzero
  | Some (JString s) => negb (String.eqb s EmptyString)
  | Some (JArray _) | Some (JObject _) => true
  end.

(** [packageJson.devDependencies]: reading a property of [null] throws. *)
Definition devDependencies (packageJson : json) : result (option json) :=
  match packageJson with
  | JNull =>
      Throw (Error "Cannot read properties of null (reading 'devDependencies')")
  | v => Ok (get_property v "devDependencies")
  end.

Section Manifest.

(** [JSON.parse]: the parsed value, or the [SyntaxError] it throws. *)
Variable JSON_parse : string -> result json.

(** The [try] block of [checkPackageJson]: the state it reaches, or the
    exception that leaves it. *)
Definition inspectPackageJson (w : World) (packageJsonPath : string)
    (st : State) : result State :=
  match readFileSync w packageJsonPath with
  | Throw e => Throw e
  | Ok text =>
      match JSON_parse text with
      | Throw e => Throw e
      | Ok packageJson =>
          match devDependencies packageJson with
          | Throw e => Throw e
          | Ok deps =>
              let st :=
                if negb (truthy (optional_property deps "eslint")) &&
                   negb (truthy (optional_property deps "@typescript-eslint/parser"))
                then report medium
                       (mkFinding "package.json" 0
                          "ESLint not configured. Consider adding for code quality enforcement."
                          "npm install -D eslint") st
                else st in
              let hasTestFramework :=
                truthy (optional_property deps "vitest") ||
                truthy (optional_property deps "jest") ||
                truthy (optional_property deps "@testing-library/react") ||
                truthy (optional_property deps "mocha") ||
                truthy (optional_property deps "ava") in
              Ok (if negb hasTestFramework
                  then report high
                         (mkFinding "package.json" 0
                            "No testing framework found. Add Vitest, Jest, or your preferred testing framework."
                            "npm install -D vitest @testing-library/react") st
                  else st)
          end
      end
  end.

Definition checkPackageJson (w : World) (st : State) : State :=
  let packageJsonPath := path_join (projectRoot w) "package.json" in
  if negb (existsSync w packageJsonPath)
  then report info
         (mkFinding "package.json" 0
            "No package.json found. This may not be a Node.js project."
            EmptyString) st
  else
    match inspectPackageJson w packageJsonPath st with
    | Ok st' => st'
    | Throw error =>
        report critical
          (mkFinding "package.json" 0 "Could not read package.json"
             (error_message error)) st
    end.

End Manifest.

(** ** The reporter *)

Definition newline : string := String LF EmptyString.

Definition severity_name (sev : Severity) : string :=
  match sev with
  | critical => "critical"
  | high => "high"
  | medium => "medium"
  | low => "low"
  | info => "info"
  end.

(** The lines one issue contributes to the listing; [index] counts from 0. *)
Definition render_issue (issue : Finding) (index : nat) : list string :=
  List.app
    [newline ++ string_of_nat (index + 1) ++ ". " ++ file issue ++ ":" ++
       string_of_nat (line issue);
     "   " ++ message issue]
    (if negb (String.eqb (code issue) EmptyString)
     then ["   Code: " ++ code issue] else []).

Fixpoint render_issues (issues : list Finding) (index : nat) : list string :=
  match issues with
  | [] => []
  | issue :: issues' =>
      (render_issue issue index ++ render_issues issues' (index + 1))%list
  end.

(** The body of [['critical', 'high', 'medium', 'low'].forEach(...)]. *)
Definition render_severity (store : IssueStore) (sev : Severity) : list string :=
  if 0 <? List.length (bucket sev store)
  then List.app
         [newline ++ toUpperCase (severity_name sev) ++ " ISSUES:";
          repeat_string "-" 80]
         (render_issues (bucket sev store) 0)
  else [].

Definition render_listing (store : IssueStore) : list string :=
  flat_map (render_severity store) [critical; high; medium; low].

(** What the run leaves behind: the lines written by [console.log] and
    either the status passed to [process.exit] or the exception that
    nobody caught. *)
Inductive Outcome : Type :=
| Exited (status : nat) (stdout : list string)
| Uncaught (e : error) (stdout : list string).

Definition FAILED_BANNER : string := "‚ùå QUALITY CHECK FAILED".
Definition WARNINGS_BANNER : string := "‚ö†Ô∏è  QUALITY CHECK PASSED WITH WARNINGS".
Definition PASSED_BANNER : string := "‚úÖ QUALITY CHECK PASSED".

(** [generateReport()]: the report and the exit status. *)
Definition generateReport (root : string) (store : IssueStore)
    : list string * nat :=
  let totalIssues :=
    List.length (critical_issues store ++ high_issues store ++
                 medium_issues store ++ low_issues store ++
                 info_issues store)%list in
  let criticalCount := List.length (critical_issues store) in
  let highCount := List.length (high_issues store) in
  let mediumCount := List.length (medium_issues store) in
  let lowCount := List.length (low_issues store) in
  let header :=
    [newline ++ repeat_string "=" 80;
     "üîç CODE QUALITY CHECK REPORT";
     repeat_string "=" 80;
     newline ++ "Project: " ++ root;
     "Total Issues Found: " ++ string_of_nat totalIssues;
     "  üî¥ Critical: " ++ string_of_nat criticalCount;
     "  üü† High: " ++ string_of_nat highCount;
     "  üü° Medium: " ++ string_of_nat mediumCount;
     "  üîµ Low: " ++ string_of_nat lowCount;
     "  ‚ÑπÔ∏è  Info: " ++ string_of_nat (List.length (info_issues store))] in
  let footer := [newline ++ repeat_string "=" 80] in
  let body := (header ++ render_listing store ++ footer)%list in
  if (0 <? criticalCount) || (0 <? highCount)
  then ((body ++
         [FAILED_BANNER;
          "   Please address critical and high-priority issues before proceeding."])%list,
        1)
  else if (0 <? mediumCount) || (0 <? lowCount)
  then ((body ++
         [WARNINGS_BANNER;
          "   Consider addressing medium and low-priority issues."])%list,
        0)
  else ((body ++ [PASSED_BANNER])%list, 0).

(** The status [process.exit] is called with. *)
Definition exit_status (store : IssueStore) : nat :=
  snd (generateReport EmptyString store).

(** ** Main execution *)

Section Main.

Variable JSON_parse : string -> result json.

(** The analyzers after discovery, in the order of the script. *)
Definition analyze (w : World) (files : list string) : result State :=
  match checkFiles w files initial_state with
  | Throw e => Throw e
  | Ok st =>
      match checkForDuplicates w st with
      | Throw e => Throw e
      | Ok st =>
          match checkForTests w st with
          | Throw e => Throw e
          | Ok st => Ok (checkPackageJson JSON_parse w st)
          end
      end
  end.

Definition main (w : World) : Outcome :=
  let out :=
    ["Running code quality checks..." ++ newline;
     "Scanning project: " ++ projectRoot w ++ newline] in
  match getAllFiles (projectRoot w) (tree w) [] with
  | Throw e => Uncaught e out
  | Ok files =>
      let found :=
        "Found " ++ string_of_nat (List.length files) ++ " files to scan..." in
      let out := (out ++ [found])%list in
      match analyze w files with
      | Throw e => Uncaught e out
      | Ok st =>
          let '(report_lines, status) :=
            generateReport (projectRoot w) (ISSUES st) in
          Exited status (out ++ report_lines)%list
      end
  end.

End Main.

(** ** Notions used to state the properties *)

(** Occurrences of a character in a string. *)
Fixpoint count_char (c : ascii) (s : string) : nat :=
  match s with
  | EmptyString => 0
  | String x s' => (if Ascii.eqb x c then 1 else 0) + count_char c s'
  end.

(** The line count [checkFile] works with. *)
Definition lineCount (content : string) : nat :=
  List.length (split LF content).

(** The two size findings of [checkFile], for a file with the given
    relative path and content. *)
Definition tooLargeFinding (relativePath content : string) : Finding :=
  mkFinding relativePath 1
    ("File is too large (" ++ string_of_nat (lineCount content) ++
     " lines). Consider splitting. Max recommended: 500 lines")
    (take 50 (hd EmptyString (split LF content)) ++ "...").

Definition componentFinding (relativePath content : string) : Finding :=
  mkFinding relativePath 1
    ("Component is large (" ++ string_of_nat (lineCount content) ++
     " lines). Consider extracting logic into custom hooks. Max recommended: 300 lines")
    (take 50 (hd EmptyString (split LF content)) ++ "...").

Definition is_too_large (f : Finding) : bool :=
  prefix "File is too large" (message f).

Definition is_component_large (f : Finding) : bool :=
  prefix "Component is large" (message f).




(** [extends P s s']: every bucket of [s'] is the bucket of [s] followed by
    findings that satisfy [P]. *)
Definition extends (P : Finding -> Prop) (s s' : IssueStore) : Prop :=
  forall sev, exists d, bucket sev s' = (bucket sev s ++ d)%list /\ Forall P d.

(** The same for states. *)
Definition grows (P : Finding -> Prop) (st st' : State) : Prop :=
  extends P (ISSUES st) (ISSUES st').






(** The loop of a greedy star inside [rmatch], by name. *)
Definition star_loop {R : Type} (fl : Flags) (r1 : regex) (k : cont R)
    : nat -> option ascii -> string -> nat -> captures -> option R :=
  fix star (fuel : nat) (prev : option ascii) (rest : string) (i : nat)
      (caps : captures) {struct fuel} : option R :=
    match fuel with
    | O => k prev rest i caps
    | S fuel' =>
        match rmatch fl r1 prev rest i caps
                (fun p s j c =>
                   if j =? i then None else star fuel' p s j c) with
        | Some res => Some res
        | None => k prev rest i caps
        end
    end.

(** A pattern that cannot match the empty string. *)
Fixpoint consumes (r : regex) : bool :=
  match r with
  | Char _ | Dot | Class _ _ => true
  | Seq r1 r2 => consumes r1 || consumes r2
  | Alt r1 r2 => consumes r1 && consumes r2
  | Group _ r1 => consumes r1
  | _ => false
  end.

(** A stand-in for [JSON.parse] on the three documents the examples use. *)
Definition sample_parse (text : string) : result json :=
  if String.eqb text "{}" then Ok (JObject [])
  else if String.eqb text "null" then Ok JNull
  else Throw (Error "Unexpected end of JSON input").


(** The findings of the cross-file analyzers that the properties name. *)
Definition noTestsFinding : Finding :=
  mkFinding "project" 0
    "No test files found. Consider adding tests for critical functionality."
    "Set up Vitest, Jest, or your preferred testing framework".

Definition noPackageJsonFinding : Finding :=
  mkFinding "package.json" 0
    "No package.json found. This may not be a Node.js project." EmptyString.


(** The first lines of every run. *)
Definition preamble (root : string) (found : nat) : list string :=
  ["Running code quality checks..." ++ newline;
   "Scanning project: " ++ root ++ newline;
   "Found " ++ string_of_nat found ++ " files to scan..."].

(** Sample inputs. *)

(** Two service files with the same base name in different directories,
    and a third service file of another name. *)
Definition services_world : World :=
  mkWorld "/p"
    (Dir [("api", Dir [("UserService.ts", File (Ok "export {}"))]);
          ("legacy", Dir [("userservice.js", File (Ok "module.exports = {}"));
                          ("order_service.py", File (Ok "pass"))])]).


(** Two lines that both call [console.log]; the same second line after a
    line that does not. *)
Definition two_logs_world : World :=
  mkWorld "/p"
    (Dir [("a.js", File (Ok ("  console.log(1)" ++ newline ++ "console.log(2)")));
          ("b.js", File (Ok ("let x = 1" ++ newline ++ "console.log(2)")))]).

(** A page with two image tags: the first has an [alt], the second has
    none. *)
Definition two_images : string :=
  "<!DOCTYPE html>" ++ newline ++
  "<img src='a.png' alt='A'>" ++ newline ++
  "<img src='b.png'>".

(** The same two tags in the other order. *)
Definition two_images_swapped : string :=
  "<!DOCTYPE html>" ++ newline ++
  "<img src='b.png'>" ++ newline ++
  "<img src='a.png' alt='A'>".

Definition two_images_world : World :=
  mkWorld "/p"
    (Dir [("i.html", File (Ok two_images));
          ("j.html", File (Ok two_images_swapped))]).

(** A project whose first file cannot be read. *)
Definition permission_denied : error :=
  Error "EACCES: permission denied, open '/p/locked.js'".

Definition unreadable_world : World :=
  mkWorld "/p"
    (Dir [("locked.js", File (Throw permission_denied));
          ("ok.js", File (Ok "console.log(1)"))]).

(** A project root that does not exist. *)
Definition missing_root_world : World := mkWorld "/nowhere" Gone.








(** ** Notions used by the further properties *)

(** The directory part every path below [dir] starts with. *)
Definition path_prefix (dir : string) : string :=
  if endsWith "/" dir then dir else dir ++ "/".

(** Every entry name of the tree satisfies [ok]. *)
Fixpoint names_ok (ok : string -> bool) (node : fsnode) : bool :=
  match node with
  | Dir entries =>
      forallb (fun e => ok (fst e) && names_ok ok (snd e)) entries
  | _ => true
  end.

(** A name as [readdirSync] lists it: no slash inside. *)
Definition plain_name (name : string) : bool := count_char slash name =? 0.

(** An entry that discovery passes over: a directory of the deny-list,
    or a regular file whose extension is not supported. *)
Definition ignored_entry (name : string) (child : fsnode) : bool :=
  match child with
  | File _ => negb (array_includes SUPPORTED_EXTENSIONS (extname name))
  | Dir _ | Locked _ => array_includes SKIPPED_DIRECTORIES name
  | Gone => false
  end.

(** The finding a line rule records for a line. *)
Definition lineFinding (r : Rule.t) (relativePath line : string) (index : nat)
    : Finding :=
  mkFinding relativePath (index + 1) (Rule.message r) (take 80 (trim line)).

(** Whether the pattern of a rule matches a line, tried from the start. *)
Definition matches_fresh (r : Rule.t) (line : string) : bool :=
  fst (test (Rule.flags r) (Rule.pattern r) 0 line).

(** One finding for every rule that matches the line, in table order. *)
Definition reportMatching (rules : list Rule.t) (relativePath line : string)
    (index : nat) (store : IssueStore) : IssueStore :=
  fold_left
    (fun s r =>
       if matches_fresh r line
       then push (Rule.severity r) (lineFinding r relativePath line index) s
       else s)
    rules store.

(** A line on which no rule of the list matches. *)
Definition quiet_line (rules : list Rule.t) (line : string) : bool :=
  forallb (fun r => negb (matches_fresh r line)) rules.

(** A finding about the file [relativePath], at one of its [n] lines. *)
Definition about_file (relativePath : string) (n : nat) (f : Finding) : Prop :=
  file f = relativePath /\ 1 <= line f /\ line f <= n.





(** The findings of the manifest inspection. *)
Definition eslintFinding : Finding :=
  mkFinding "package.json" 0
    "ESLint not configured. Consider adding for code quality enforcement."
    "npm install -D eslint".

Definition noFrameworkFinding : Finding :=
  mkFinding "package.json" 0
    "No testing framework found. Add Vitest, Jest, or your preferred testing framework."
    "npm install -D vitest @testing-library/react".

(** A manifest value whose [devDependencies] is missing or not an object,
    so that no lookup in it finds anything. *)
Definition declares_nothing (v : json) : bool :=
  match get_property v "devDependencies" with
  | Some (JObject _) => false
  | _ => true
  end.

(** A finding that lists the given relative paths as duplicates. *)
Definition duplicatesFinding (paths : list string) : Finding :=
  mkFinding "services/" 0
    ("Potential duplicate service files detected: " ++ join ", " paths)
    "Consider consolidating into a single service file".

(** The first line the report prints for the finding at position [k]
    (counted from 0) of its bucket. *)
Definition issue_heading (k : nat) (f : Finding) : string :=
  newline ++ string_of_nat (k + 1) ++ ". " ++ file f ++ ":" ++
  string_of_nat (line f).

(** Running discovery on what an earlier discovery returned. *)
Definition and_then (r : result (list string))
    (k : list string -> result (list string)) : result (list string) :=
  match r with
  | Ok l => k l
  | Throw e => Throw e
  end.

(** Sample inputs of the further properties. *)

(** Two manifests: one with a [scripts] member only, one that declares a
    linter and a test framework. *)
Definition bare_manifest_text : string :=
  "{" ++ quote ++ "scripts" ++ quote ++ ": {}}".

Definition good_manifest_text : string :=
  "{" ++ quote ++ "devDependencies" ++ quote ++ ": {" ++
  quote ++ "eslint" ++ quote ++ ": " ++ quote ++ "^9.0.0" ++ quote ++ ", " ++
  quote ++ "vitest" ++ quote ++ ": " ++ quote ++ "^2.0.0" ++ quote ++ "}}".

(** A stand-in for [JSON.parse] that also knows these two documents. *)
Definition sample_parse2 (text : string) : result json :=
  if String.eqb text bare_manifest_text
  then Ok (JObject [("scripts", JObject [])])
  else if String.eqb text good_manifest_text
  then Ok (JObject [("devDependencies",
                     JObject [("eslint", JString "^9.0.0");
                              ("vitest", JString "^2.0.0")])])
  else sample_parse text.

Definition bare_manifest_world : World :=
  mkWorld "/p" (Dir [("package.json", File (Ok bare_manifest_text))]).

Definition good_manifest_world : World :=
  mkWorld "/p" (Dir [("package.json", File (Ok good_manifest_text))]).

(** Two service files of different base names. *)
Definition distinct_services_world : World :=
  mkWorld "/p"
    (Dir [("a", Dir [("UserService.ts", File (Ok "export {}"))]);
          ("b", Dir [("order_service.py", File (Ok "pass"))])]).


(** A small module without anything the TypeScript rules look for. *)
Definition quiet_world : World :=
  mkWorld "/p"
    (Dir [("util.ts", File (Ok ("export const one = 1;" ++ newline ++
                               "export const two = 2;" ++ newline)))]).


(** A project kept in a directory whose name looks like a test marker. *)
Definition marker_root_world : World :=
  mkWorld "/work/__tests__/app" (Dir [("main.js", File (Ok "let x = 1"))]).


Definition discovery_tree : fsnode :=
  Dir [("node_modules", Dir [("lib.js", File (Ok "x"))]);
       ("README.md", File (Ok "# readme"));
       ("src", Dir [("App.tsx", File (Ok "export {}"));
                    ("query.sql", File (Ok "SELECT 1;"))]);
       ("index.html", File (Ok "<!DOCTYPE html>"))].

(** * Properties *)

(** ** Strings and lists *)

Lemma append_nil_r (s : string) : s ++ "" = s.
Proof. induction s as [|c s IH]; simpl; [reflexivity | now rewrite IH]. Qed.

Lemma append_assoc (a b c : string) : (a ++ b) ++ c = a ++ (b ++ c).
Proof. induction a as [|x a IH]; simpl; [reflexivity | now rewrite IH]. Qed.

Lemma length_append (a b : string) :
  String.length (a ++ b) = String.length a + String.length b.
Proof. induction a as [|x a IH]; simpl; [reflexivity | now rewrite IH]. Qed.

Lemma prefix_append (p s : string) : prefix p (p ++ s) = true.
Proof.
  induction p as [|c p IH]; simpl.
  - now destruct s.
  - destruct (ascii_dec c c) as [_|n]; [exact IH | now elim n].
Qed.

Lemma drop_append (p s : string) : drop (String.length p) (p ++ s) = s.
Proof. induction p as [|c p IH]; simpl; [now destruct s | exact IH]. Qed.

Lemma replace_unfold (p r s : string) :
  replace p r s =
  if prefix p s then r ++ drop (String.length p) s
  else match s with
       | EmptyString => EmptyString
       | String c s' => String c (replace p r s')
       end.
Proof. destruct s; reflexivity. Qed.

(** Removing the prefix [p] of a string that starts with it. *)
Lemma replace_prefix (p s : string) : replace p "" (p ++ s) = s.
Proof.
  rewrite replace_unfold, prefix_append, drop_append. reflexivity.
Qed.

Lemma split_nonempty (sep : ascii) (s : string) : split sep s <> [].
Proof.
  destruct s as [|c s]; simpl; [discriminate|].
  destruct (Ascii.eqb c sep); [discriminate|].
  destruct (split sep s); discriminate.
Qed.

(** [split] yields one more piece than there are separators. *)
Lemma split_length (sep : ascii) (s : string) :
  List.length (split sep s) = S (count_char sep s).
Proof.
  induction s as [|c s IH]; simpl; [reflexivity|].
  destruct (Ascii.eqb c sep); simpl.
  - now rewrite IH.
  - destruct (split sep s) eqn:E; simpl in *; [discriminate | exact IH].
Qed.

Lemma split_append (sep : ascii) (a b : string) :
  split sep (a ++ String sep b) = (split sep a ++ split sep b)%list.
Proof.
  induction a as [|c a IH]; simpl.
  - now rewrite Ascii.eqb_refl.
  - destruct (Ascii.eqb c sep); rewrite IH; [reflexivity|].
    destruct (split sep a) eqn:E; [now apply split_nonempty in E | reflexivity].
Qed.

Lemma last_append_nonempty {A : Type} (l l' : list A) (d : A) :
  l' <> [] -> last (l ++ l') d = last l' d.
Proof.
  intros Hne. induction l as [|x l IH]; simpl; [reflexivity|].
  destruct (l ++ l')%list eqn:E; [|exact IH].
  apply app_eq_nil in E. now destruct E.
Qed.

(** The last path segment of [dir/name]. *)
Lemma pop_split_append (sep : ascii) (a b : string) :
  pop (split sep (a ++ String sep b)) = pop (split sep b).
Proof.
  unfold pop. rewrite split_append.
  apply last_append_nonempty, split_nonempty.
Qed.



(** ** The matcher moves forward *)

Lemma rmatch_Star {R : Type} (fl : Flags) (r1 : regex) (prev : option ascii)
    (rest : string) (i : nat) (caps : captures) (k : cont R) :
  rmatch fl (Star r1) prev rest i caps k =
  star_loop fl r1 k (S (String.length rest)) prev rest i caps.
Proof. reflexivity. Qed.

(** A successful match attempt ends in a call of the continuation, at a
    position that is not before the starting one, and beyond it for a
    pattern that cannot match the empty string. *)
Lemma rmatch_progress {R : Type} (fl : Flags) (r : regex) :
  forall prev rest i caps (k : cont R) res,
    rmatch fl r prev rest i caps k = Some res ->
    exists p s j c,
      k p s j c = Some res /\
      i + (if consumes r then 1 else 0) <= j /\
      j + String.length s = i + String.length rest.
Proof.
  induction r as [| c | | neg items | | | | r1 IH1 r2 IH2 | r1 IH1 r2 IH2
                 | r1 IH1 | n r1 IH1 | r1 IH1];
    intros prev rest i caps k res H;
    try rewrite rmatch_Star in H; cbn [rmatch consumes] in *.
  - exists prev, rest, i, caps. repeat split; [exact H | lia].
  - destruct rest as [|x rest']; [discriminate|].
    destruct (Ascii.eqb _ _); [|discriminate].
    exists (Some x), rest', (S i), caps. simpl. repeat split; [exact H | lia | lia].
  - destruct rest as [|x rest']; [discriminate|].
    destruct (isLineTerminator x); [discriminate|].
    exists (Some x), rest', (S i), caps. simpl. repeat split; [exact H | lia | lia].
  - destruct rest as [|x rest']; [discriminate|].
    destruct (class_matches fl neg items x); [|discriminate].
    exists (Some x), rest', (S i), caps. simpl. repeat split; [exact H | lia | lia].
  - destruct (xorb _ _); [|discriminate].
    exists prev, rest, i, caps. repeat split; [exact H | lia].
  - destruct prev as [c|].
    + destruct (multiline fl && isLineTerminator c); [|discriminate].
      exists (Some c), rest, i, caps. repeat split; [exact H | lia].
    + exists None, rest, i, caps. repeat split; [exact H | lia].
  - destruct rest as [|c rest'].
    + exists prev, EmptyString, i, caps. repeat split; [exact H | lia].
    + destruct (multiline fl && isLineTerminator c); [|discriminate].
      exists prev, (String c rest'), i, caps. repeat split; [exact H | lia].
  - apply IH1 in H. destruct H as [p [s [j [c [H [Hj Hs]]]]]].
    apply IH2 in H. destruct H as [p' [s' [j' [c' [H [Hj' Hs']]]]]].
    exists p', s', j', c'. repeat split; [exact H | | lia].
    destruct (consumes r1), (consumes r2); simpl in *; lia.
  - destruct (rmatch fl r1 prev rest i caps k) as [res'|] eqn:E.
    + injection H as ->. apply IH1 in E.
      destruct E as [p [s [j [c [E [Hj Hs]]]]]].
      exists p, s, j, c. repeat split; [exact E | | exact Hs].
      destruct (consumes r1), (consumes r2); simpl in *; lia.
    + apply IH2 in H. destruct H as [p [s [j [c [H [Hj Hs]]]]]].
      exists p, s, j, c. repeat split; [exact H | | exact Hs].
      destruct (consumes r1), (consumes r2); simpl in *; lia.
  - generalize dependent (S (String.length rest)). intros n.
    revert prev rest i caps.
    induction n as [|n IHn]; intros prev rest i caps H; simpl in H.
    + exists prev, rest, i, caps. repeat split; [exact H | lia].
    + match type of H with
      | match ?m with _ => _ end = _ => destruct m as [res'|] eqn:E
      end.
      * injection H as ->. apply IH1 in E.
        destruct E as [p [s [j [c [E [Hj Hs]]]]]].
        destruct (j =? i); [discriminate|].
        apply IHn in E. destruct E as [p' [s' [j' [c' [E [Hj' Hs']]]]]].
        exists p', s', j', c'. repeat split; [exact E | lia | lia].
      * exists prev, rest, i, caps. repeat split; [exact H | lia].
  - apply IH1 in H. destruct H as [p [s [j [c [H [Hj Hs]]]]]].
    exists p, s, j, ((n, take (j - i) rest) :: c). repeat split; assumption.
  - destruct (rmatch fl r1 prev rest i caps (fun _ _ j _ => Some j));
      [discriminate|].
    exists prev, rest, i, caps. repeat split; [exact H | lia].
Qed.

Lemma seek_length (n : nat) :
  forall prev s prev' rest,
    seek n prev s = Some (prev', rest) ->
    n + String.length rest = String.length s.
Proof.
  induction n as [|n IH]; intros prev s prev' rest H; simpl in H.
  - now injection H as _ ->.
  - destruct s as [|c s]; [discriminate|]. apply IH in H. simpl. lia.
Qed.

Lemma seek_past_end (n : nat) :
  forall prev s, String.length s < n -> seek n prev s = None.
Proof.
  induction n as [|n IH]; intros prev s H; [lia|].
  destruct s as [|c s]; [reflexivity|]. simpl in *. apply IH. lia.
Qed.

(** Where a match found by [search] lies. *)
Lemma search_bounds (fl : Flags) (r : regex) (rest : string) :
  forall prev i m,
    search fl r prev rest i = Some m ->
    i <= index m /\
    index m + (if consumes r then 1 else 0) <= endIndex m /\
    endIndex m <= i + String.length rest.
Proof.
  induction rest as [|x rest IH]; intros prev i m H; simpl in H.
  - destruct (match_here fl r prev "" i) as [m'|] eqn:E; [|discriminate].
    injection H as ->. unfold match_here in E.
    apply rmatch_progress in E. destruct E as [p [s [j [c [E [Hj Hs]]]]]].
    injection E as <-. simpl in *. lia.
  - destruct (match_here fl r prev (String x rest) i) as [m'|] eqn:E.
    + injection H as ->. unfold match_here in E.
      apply rmatch_progress in E. destruct E as [p [s [j [c [E [Hj Hs]]]]]].
      injection E as <-. simpl in *. lia.
    + apply IH in H. simpl. lia.
Qed.

(** A successful [exec] of a global pattern leaves [lastIndex] at the end
    of the match, inside the input and not before its old value. *)
Lemma exec_global_bounds (fl : Flags) (r : regex) (lastIndex : nat) (s : string)
    (m : MatchResult) (li : nat) :
  global fl = true ->
  exec fl r lastIndex s = (Some m, li) ->
  li = endIndex m /\
  lastIndex + (if consumes r then 1 else 0) <= li /\
  li <= String.length s.
Proof.
  intros Hg H. unfold exec in H. rewrite Hg in H.
  destruct (seek lastIndex None s) as [[prev rest]|] eqn:Es; [|discriminate].
  apply seek_length in Es.
  destruct (search fl r prev rest lastIndex) as [m'|] eqn:E; [|discriminate].
  injection H as -> <-. apply search_bounds in E. lia.
Qed.

Lemma exec_past_end (fl : Flags) (r : regex) (lastIndex : nat) (s : string) :
  global fl = true ->
  String.length s < lastIndex ->
  exec fl r lastIndex s = (None, 0).
Proof.
  intros Hg H. unfold exec. rewrite Hg, (seek_past_end _ _ _ H). reflexivity.
Qed.

(** The [while] loop over [exec] needs no more rounds than the input has
    positions left: with enough fuel the matches it collects do not depend
    on the fuel. *)
Lemma execAll_from_fuel (fl : Flags) (r : regex) (s : string) :
  global fl = true ->
  consumes r = true ->
  forall n1 n2 lastIndex,
    String.length s < lastIndex + n1 ->
    String.length s < lastIndex + n2 ->
    execAll_from n1 fl r lastIndex s = execAll_from n2 fl r lastIndex s.
Proof.
  intros Hg Hc.
  induction n1 as [|n1 IH]; intros n2 li H1 H2.
  - destruct n2 as [|n2]; [reflexivity|]. simpl.
    rewrite exec_past_end by (assumption || lia). reflexivity.
  - destruct n2 as [|n2]; simpl.
    + rewrite exec_past_end by (assumption || lia). reflexivity.
    + destruct (exec fl r li s) as [[m|] li'] eqn:E; [|reflexivity].
      apply exec_global_bounds in E; [|exact Hg]. rewrite Hc in E.
      f_equal. apply IH; lia.
Qed.

Lemma execAll_enough_fuel (fl : Flags) (r : regex) (s : string) (extra : nat) :
  global fl = true ->
  consumes r = true ->
  execAll_from (S (String.length s) + extra) fl r 0 s = execAll fl r s.
Proof.
  intros Hg Hc. unfold execAll. apply execAll_from_fuel; try assumption; lia.
Qed.

(** In particular for the three loops of [checkHTMLFile]. *)
Lemma html_loops_enough_fuel (content : string) (extra : nat) :
  execAll_from (S (String.length content) + extra) flags_gi imgTagRegex 0 content =
    execAll flags_gi imgTagRegex content /\
  execAll_from (S (String.length content) + extra) flags_gi
      (tagWithAttrRegex "<input" "id") 0 content =
    execAll flags_gi (tagWithAttrRegex "<input" "id") content /\
  execAll_from (S (String.length content) + extra) flags_gi
      (tagWithAttrRegex "<label" "for") 0 content =
    execAll flags_gi (tagWithAttrRegex "<label" "for") content.
Proof. repeat split; now apply execAll_enough_fuel. Qed.

Lemma search_nonempty_match (fl : Flags) (r : regex) (rest : string) :
  forall prev i m,
    search fl r prev rest i = Some m ->
    String.eqb (matched m) EmptyString = false ->
    index m < endIndex m.
Proof.
  assert (Hhere : forall prev rest i m,
            match_here fl r prev rest i = Some m ->
            String.eqb (matched m) EmptyString = false ->
            index m < endIndex m).
  { intros prev rest0 i m E Hne. unfold match_here in E.
    apply rmatch_progress in E. destruct E as [p [s [j [c [E [Hj Hs]]]]]].
    injection E as <-. simpl in *.
    destruct (j - i) as [|d] eqn:Ed; [|lia].
    unfold take in Hne. now destruct rest0. }
  induction rest as [|x rest IH]; intros prev i m H Hne; simpl in H.
  - destruct (match_here fl r prev "" i) as [m'|] eqn:E; [|discriminate].
    injection H as ->. eapply Hhere; eassumption.
  - destruct (match_here fl r prev (String x rest) i) as [m'|] eqn:E.
    + injection H as ->. eapply Hhere; eassumption.
    + eapply IH; eassumption.
Qed.

(** [s.match(re)] with a global pattern always moves on: the fuel of
    [matchAll] is never exhausted. *)
Lemma matchAll_from_fuel (fl : Flags) (r : regex) (s : string) :
  global fl = true ->
  forall n1 n2 lastIndex,
    String.length s + 1 < lastIndex + n1 ->
    String.length s + 1 < lastIndex + n2 ->
    matchAll_from n1 fl r lastIndex s = matchAll_from n2 fl r lastIndex s.
Proof.
  intros Hg.
  assert (Hstep : forall li m li',
            exec fl r li s = (Some m, li') ->
            li < (if String.eqb (matched m) EmptyString then S li' else li')).
  { intros li m li' E.
    pose proof (exec_global_bounds _ _ _ _ _ _ Hg E) as [-> [Hlo _]].
    unfold exec in E. rewrite Hg in E.
    destruct (seek li None s) as [[prev rest]|]; [|discriminate].
    destruct (search fl r prev rest li) as [m'|] eqn:Em; [|discriminate].
    injection E as ->.
    destruct (String.eqb (matched m) EmptyString) eqn:Ee; [lia|].
    pose proof (search_nonempty_match _ _ _ _ _ _ Em Ee).
    apply search_bounds in Em. lia. }
  induction n1 as [|n1 IH]; intros n2 li H1 H2.
  - destruct n2 as [|n2]; [reflexivity|]. simpl.
    rewrite exec_past_end by (assumption || lia). reflexivity.
  - destruct n2 as [|n2]; simpl.
    + rewrite exec_past_end by (assumption || lia). reflexivity.
    + destruct (exec fl r li s) as [[m|] li'] eqn:E; [|reflexivity].
      apply Hstep in E. f_equal. apply IH; lia.
Qed.

Lemma matchAll_enough_fuel (fl : Flags) (r : regex) (s : string) (extra : nat) :
  global fl = true ->
  matchAll_from (S (S (String.length s)) + extra) fl r 0 s = matchAll fl r s.
Proof.
  intros Hg. unfold matchAll. apply matchAll_from_fuel; [assumption | lia | lia].
Qed.

(** Two continuations that agree on the positions a match attempt can
    reach give the same result. *)
Lemma rmatch_ext {R : Type} (fl : Flags) (r : regex) :
  forall prev rest i caps (k1 k2 : cont R),
    (forall p s j c,
       i <= j -> j + String.length s = i + String.length rest ->
       k1 p s j c = k2 p s j c) ->
    rmatch fl r prev rest i caps k1 = rmatch fl r prev rest i caps k2.
Proof.
  induction r as [| c | | neg items | | | | r1 IH1 r2 IH2 | r1 IH1 r2 IH2
                 | r1 IH1 | n r1 IH1 | r1 IH1];
    intros prev rest i caps k1 k2 Hk;
    try rewrite !rmatch_Star; cbn [rmatch].
  - apply Hk; lia.
  - destruct rest as [|x rest']; [reflexivity|].
    destruct (Ascii.eqb _ _); [|reflexivity]. apply Hk; simpl; lia.
  - destruct rest as [|x rest']; [reflexivity|].
    destruct (isLineTerminator x); [reflexivity|]. apply Hk; simpl; lia.
  - destruct rest as [|x rest']; [reflexivity|].
    destruct (class_matches fl neg items x); [|reflexivity].
    apply Hk; simpl; lia.
  - destruct (xorb _ _); [|reflexivity]. apply Hk; lia.
  - destruct prev as [c|]; [|apply Hk; lia].
    destruct (multiline fl && isLineTerminator c); [|reflexivity]. apply Hk; lia.
  - destruct rest as [|c rest']; [apply Hk; lia|].
    destruct (multiline fl && isLineTerminator c); [|reflexivity]. apply Hk; lia.
  - apply IH1. intros p s j c Hj Hs. apply IH2.
    intros p' s' j' c' Hj' Hs'. apply Hk; lia.
  - rewrite (IH1 _ _ _ _ k1 k2 Hk), (IH2 _ _ _ _ k1 k2 Hk). reflexivity.
  - generalize (S (String.length rest)). intros n.
    assert (H : forall prev' rest' i' caps',
              i <= i' -> i' + String.length rest' = i + String.length rest ->
              star_loop fl r1 k1 n prev' rest' i' caps' =
              star_loop fl r1 k2 n prev' rest' i' caps');
      [|apply H; lia].
    induction n as [|n IHn]; intros prev' rest' i' caps' Hi Hr; simpl.
    + apply Hk; assumption.
    + rewrite (Hk _ _ _ _ Hi Hr).
      erewrite IH1; [reflexivity|].
      intros p s j c Hj Hs. simpl.
      destruct (j =? i'); [reflexivity|]. apply IHn; lia.
  - apply IH1. intros p s j c Hj Hs. apply Hk; assumption.
  - rewrite (Hk prev rest i caps) by lia. reflexivity.
Qed.

(** A greedy star never runs out of rounds: any fuel above the length of
    the remaining input gives the result of [rmatch]. *)
Lemma star_loop_fuel {R : Type} (fl : Flags) (r1 : regex) (k : cont R) :
  forall n1 n2 prev rest i caps,
    String.length rest < n1 ->
    String.length rest < n2 ->
    star_loop fl r1 k n1 prev rest i caps =
    star_loop fl r1 k n2 prev rest i caps.
Proof.
  induction n1 as [|n1 IH]; intros n2 prev rest i caps H1 H2; [lia|].
  destruct n2 as [|n2]; [lia|]. simpl.
  erewrite rmatch_ext; [reflexivity|].
  intros p s j c Hj Hs. simpl.
  destruct (j =? i) eqn:E; [reflexivity|].
  apply Nat.eqb_neq in E. apply IH; lia.
Qed.

Lemma rmatch_Star_enough_fuel {R : Type} (fl : Flags) (r1 : regex)
    (prev : option ascii) (rest : string) (i : nat) (caps : captures)
    (k : cont R) (extra : nat) :
  star_loop fl r1 k (S (String.length rest) + extra) prev rest i caps =
  rmatch fl (Star r1) prev rest i caps k.
Proof. rewrite rmatch_Star. apply star_loop_fuel; lia. Qed.

(** ** The reporter *)

Lemma generateReport_status (root : string) (store : IssueStore) :
  snd (generateReport root store) =
  if List.length (critical_issues store) + List.length (high_issues store) =? 0
  then 0 else 1.
Proof.
  unfold generateReport.
  destruct (critical_issues store) as [|c cs], (high_issues store) as [|h hs];
    simpl; try reflexivity.
  destruct (medium_issues store), (low_issues store); reflexivity.
Qed.

(** The lines of one issue, as they are read in the report. *)
Lemma render_issue_lines (f : Finding) (k : nat) :
  render_issue f k =
  List.app [issue_heading k f; "   " ++ message f]
    (if String.eqb (code f) EmptyString then [] else ["   Code: " ++ code f]).
Proof.
  unfold render_issue, issue_heading.
  now destruct (String.eqb (code f) EmptyString).
Qed.

Lemma render_issues_at (issues : list Finding) :
  forall i k f,
    nth_error issues k = Some f ->
    exists before after,
      render_issues issues i =
      List.app before (List.app (render_issue f (i + k)) after).
Proof.
  induction issues as [|g issues IH]; intros i k f H; [now destruct k|].
  destruct k as [|k]; simpl in H.
  - injection H as ->. rewrite Nat.add_0_r.
    exists [], (render_issues issues (i + 1)). reflexivity.
  - destruct (IH (i + 1) k f H) as [b [a E]].
    replace (i + S k) with (i + 1 + k) by lia.
    exists (List.app (render_issue g i) b), a.
    cbn [render_issues]. rewrite E. now rewrite <- app_assoc.
Qed.

Lemma render_listing_at (store : IssueStore) (sev : Severity) (k : nat)
    (f : Finding) :
  sev <> info ->
  nth_error (bucket sev store) k = Some f ->
  exists before after,
    render_listing store = List.app before (List.app (render_issue f k) after).
Proof.
  intros Hsev Hnth.
  destruct (render_issues_at _ 0 k f Hnth) as [b [a E]]. simpl in E.
  assert (Hsec : exists b', render_severity store sev =
                            List.app b' (List.app (render_issue f k) a)).
  { unfold render_severity.
    destruct (bucket sev store) as [|g l] eqn:Eb; [now destruct k|].
    cbn [List.length Nat.ltb Nat.leb]. rewrite E.
    eexists (_ :: _ :: b). reflexivity. }
  destruct Hsec as [b' Hsec].
  unfold render_listing. cbn [flat_map].
  destruct sev; try (now elim Hsev); rewrite Hsec.
  - exists b', (List.app a
                 (List.app (render_severity store high)
                    (List.app (render_severity store medium)
                       (List.app (render_severity store low) [])))).
    now rewrite <- !app_assoc.
  - exists (List.app (render_severity store critical) b'),
      (List.app a
         (List.app (render_severity store medium)
            (List.app (render_severity store low) []))).
    now rewrite <- !app_assoc.
  - exists (List.app (render_severity store critical)
              (List.app (render_severity store high) b')),
      (List.app a (List.app (render_severity store low) [])).
    now rewrite <- !app_assoc.
  - exists (List.app (render_severity store critical)
              (List.app (render_severity store high)
                 (List.app (render_severity store medium) b'))),
      (List.app a []).
    now rewrite <- !app_assoc.
Qed.

(** The report is a header, the listing and a tail; a failing report ends
    with the banner of failure. *)
Lemma generateReport_parts (root : string) (store : IssueStore) :
  exists header tail,
    fst (generateReport root store) =
      List.app header (List.app (render_listing store) tail) /\
    (snd (generateReport root store) = 1 ->
     exists mid,
       tail =
       List.app mid
         [FAILED_BANNER;
          "   Please address critical and high-priority issues before proceeding."]).
Proof.
  unfold generateReport. cbv zeta.
  destruct ((0 <? List.length (critical_issues store)) ||
            (0 <? List.length (high_issues store))).
  - cbn [fst snd].
    match goal with
    | |- exists header tail, List.app (List.app ?h (List.app ?l ?f)) ?v = _ /\ _ =>
        exists h, (List.app f v)
    end.
    split; [now rewrite <- !app_assoc|].
    intros _. eexists. reflexivity.
  - destruct ((0 <? List.length (medium_issues store)) ||
              (0 <? List.length (low_issues store))); cbn [fst snd];
      match goal with
      | |- exists header tail, List.app (List.app ?h (List.app ?l ?f)) ?v = _ /\ _ =>
          exists h, (List.app f v)
      end;
      (split; [now rewrite <- !app_assoc | discriminate]).
Qed.

(** Where the report shows a finding of a listed severity. *)
Lemma generateReport_prints (root : string) (store : IssueStore)
    (sev : Severity) (k : nat) (f : Finding) :
  sev <> info ->
  nth_error (bucket sev store) k = Some f ->
  exists before after,
    fst (generateReport root store) =
      List.app before (List.app (render_issue f k) after) /\
    (snd (generateReport root store) = 1 ->
     exists mid,
       after =
       List.app mid
         [FAILED_BANNER;
          "   Please address critical and high-priority issues before proceeding."]).
Proof.
  intros Hsev Hnth.
  destruct (render_listing_at store sev k f Hsev Hnth) as [b [a E]].
  destruct (generateReport_parts root store) as [header [tail [Hrep Hfail]]].
  exists (List.app header b), (List.app a tail). split.
  - rewrite Hrep, E. now rewrite <- !app_assoc.
  - intros Hst. destruct (Hfail Hst) as [mid ->].
    exists (List.app a mid). now rewrite <- app_assoc.
Qed.

(** C1.  The exit status computed by [generateReport] is 1 when the
    critical and high buckets together hold at least one finding and 0
    otherwise; the medium, low and info buckets play no part in it.  It is
    the status of the process: a run that reaches the report with the store
    [store] exits with it. *)
Theorem exit_status_by_critical_and_high (root : string) (store : IssueStore) :
  snd (generateReport root store) =
    (if List.length (critical_issues store) + List.length (high_issues store) =? 0
     then 0 else 1) /\
  (forall (JSON_parse : string -> result json) (w : World)
          (files : list string) (st : State),
     getAllFiles (projectRoot w) (tree w) [] = Ok files ->
     analyze JSON_parse w files = Ok st ->
     ISSUES st = store ->
     main JSON_parse w =
     Exited
       (if List.length (critical_issues store) +
           List.length (high_issues store) =? 0
        then 0 else 1)
       (preamble (projectRoot w) (List.length files) ++
        fst (generateReport (projectRoot w) store))%list).
Proof.
  split; [apply generateReport_status|].
  intros JSON_parse w files st Hfiles Han Hst.
  unfold main. rewrite Hfiles, Han, Hst.
  pose proof (generateReport_status (projectRoot w) store) as Hstatus.
  destruct (generateReport (projectRoot w) store) as [report_lines status].
  simpl in Hstatus. subst status. reflexivity.
Qed.

Lemma exit_status_by_critical_and_high_witness :
  main sample_parse missing_root_world =
  Exited 1
    (preamble "/nowhere" 0 ++
     fst (generateReport "/nowhere"
            (mkIssues [] [noTestsFinding] [] [] [noPackageJsonFinding])))%list.
Proof.
  apply (proj2 (exit_status_by_critical_and_high "/nowhere"
                  (mkIssues [] [noTestsFinding] [] [] [noPackageJsonFinding]))
           sample_parse missing_root_world []
           (set_issues initial_state
              (mkIssues [] [noTestsFinding] [] [] [noPackageJsonFinding])));
    reflexivity.
Defined.




(** ** The issue store only grows *)

Section Extends.

Variable P : Finding -> Prop.

Lemma extends_refl (s : IssueStore) : extends P s s.
Proof. intros sev. exists []. now rewrite app_nil_r. Qed.

Lemma extends_trans (s1 s2 s3 : IssueStore) :
  extends P s1 s2 -> extends P s2 s3 -> extends P s1 s3.
Proof.
  intros H12 H23 sev.
  destruct (H12 sev) as [d1 [E1 F1]], (H23 sev) as [d2 [E2 F2]].
  exists (d1 ++ d2)%list. split.
  - now rewrite E2, E1, <- app_assoc.
  - now apply Forall_app.
Qed.

Lemma extends_push (sev : Severity) (f : Finding) (s : IssueStore) :
  P f -> extends P s (push sev f s).
Proof.
  intros Hf sev'.
  destruct sev, sev'; simpl;
    first [ exists [f]; split; [reflexivity | now constructor]
          | exists []; split; [now rewrite app_nil_r | constructor] ].
Qed.

Lemma grows_refl (st : State) : grows P st st.
Proof. apply extends_refl. Qed.

Lemma grows_trans (st1 st2 st3 : State) :
  grows P st1 st2 -> grows P st2 st3 -> grows P st1 st3.
Proof. apply extends_trans. Qed.

Lemma grows_report (sev : Severity) (f : Finding) (st : State) :
  P f -> grows P st (report sev f st).
Proof. intros Hf. unfold grows, report. simpl. now apply extends_push. Qed.

Lemma grows_if_report (b : bool) (sev : Severity) (f : Finding) (st : State) :
  P f -> grows P st (if b then report sev f st else st).
Proof.
  intros Hf. destruct b; [now apply grows_report | apply grows_refl].
Qed.


Lemma fold_left_grows {A : Type} (f : State -> A -> State) (l : list A) :
  (forall st x, grows P st (f st x)) ->
  forall st, grows P st (fold_left f l st).
Proof.
  intros Hf. induction l as [|x l IH]; intros st; simpl.
  - apply grows_refl.
  - eapply grows_trans; [apply Hf | apply IH].
Qed.



End Extends.





(** ** Size checks *)


Lemma too_large_is_too_large (rel content : string) :
  is_too_large (tooLargeFinding rel content) = true.
Proof. reflexivity. Qed.

Lemma component_is_component_large (rel content : string) :
  is_component_large (componentFinding rel content) = true.
Proof. reflexivity. Qed.







(** ** Discovery and the runs that stop early *)

Lemma getAllFiles_cons (dir file : string) (child : fsnode)
    (files : list (string * fsnode)) (fileList : list string) :
  getAllFiles dir (Dir ((file, child) :: files)) fileList =
  match child with
  | Gone => Throw (statSync_ENOENT (path_join dir file))
  | File _ =>
      if array_includes SUPPORTED_EXTENSIONS (extname file)
      then getAllFiles dir (Dir files) (fileList ++ [path_join dir file])%list
      else getAllFiles dir (Dir files) fileList
  | Dir _ | Locked _ =>
      if negb (array_includes SKIPPED_DIRECTORIES file)
      then match getAllFiles (path_join dir file) child fileList with
           | Ok fileList' => getAllFiles dir (Dir files) fileList'
           | Throw e => Throw e
           end
      else getAllFiles dir (Dir files) fileList
  end.
Proof. destruct child; reflexivity. Qed.

(** The entries of a directory are handled in order, and an exception
    ends the loop. *)
Lemma getAllFiles_app (dir : string) (first rest : list (string * fsnode))
    (fileList : list string) :
  getAllFiles dir (Dir (first ++ rest)) fileList =
  and_then (getAllFiles dir (Dir first) fileList) (getAllFiles dir (Dir rest)).
Proof.
  revert fileList. induction first as [|[file child] first IH];
    intros fileList; [reflexivity|].
  rewrite <- app_comm_cons, !getAllFiles_cons.
  destruct child as [c|sub|e|].
  - destruct (array_includes SUPPORTED_EXTENSIONS (extname file)); apply IH.
  - destruct (negb (array_includes SKIPPED_DIRECTORIES file)); [|apply IH].
    destruct (getAllFiles (path_join dir file) (Dir sub) fileList);
      [apply IH | reflexivity].
  - destruct (negb (array_includes SKIPPED_DIRECTORIES file)); [|apply IH].
    reflexivity.
  - reflexivity.
Qed.

(** A listed entry under which nothing is found stops discovery, unless an
    earlier entry has stopped it already. *)
Lemma getAllFiles_missing_entry (dir name : string)
    (pre post : list (string * fsnode)) (fileList : list string) :
  getAllFiles dir (Dir (pre ++ (name, Gone) :: post)) fileList =
  and_then (getAllFiles dir (Dir pre) fileList)
    (fun _ => Throw (statSync_ENOENT (path_join dir name))).
Proof.
  rewrite getAllFiles_app.
  destruct (getAllFiles dir (Dir pre) fileList); reflexivity.
Qed.

Lemma existsSync_gone (root p : string) : existsSync (mkWorld root Gone) p = false.
Proof.
  unfold existsSync, resolve_path. simpl.
  destruct (String.eqb p root); [reflexivity|].
  match goal with |- context [prefix ?b p] => destruct (prefix b p) end;
    [|reflexivity].
  match goal with |- context [split slash ?x] =>
    destruct (split slash x) eqn:E end; [now apply split_nonempty in E|].
  reflexivity.
Qed.

Lemma readFileSync_exists (w : World) (p text : string) :
  readFileSync w p = Ok text -> existsSync w p = true.
Proof.
  unfold readFileSync, existsSync.
  destruct (resolve_path w p) as [[c|entries|e|]|]; try discriminate; reflexivity.
Qed.

(** An unreadable file makes [checkFile] throw, and with it the loop over
    the discovered files. *)
Lemma checkFile_unreadable (w : World) (filePath : string) (st : State) (e : error) :
  readFileSync w filePath = Throw e -> checkFile w filePath st = Throw e.
Proof. intros H. unfold checkFile. now rewrite H. Qed.

Lemma checkFiles_unreadable (w : World) (filePath : string)
    (files : list string) (st : State) (e : error) :
  readFileSync w filePath = Throw e ->
  checkFiles w (filePath :: files) st = Throw e.
Proof. intros H. simpl. now rewrite (checkFile_unreadable _ _ _ _ H). Qed.

(** C3.  What the script does with a project whose first discovered file
    cannot be read: the exception of [readFileSync] leaves [checkFile] and
    the run; no finding is recorded for the file, the second file is never
    analysed and no report is written. *)
Theorem unreadable_file_aborts_the_run :
  getAllFiles "/p" (tree unreadable_world) [] = Ok ["/p/locked.js"; "/p/ok.js"] /\
  checkFile unreadable_world "/p/locked.js" initial_state = Throw permission_denied /\
  main sample_parse unreadable_world = Uncaught permission_denied (preamble "/p" 2).
Proof. repeat split; reflexivity. Qed.

(** C4, as stated, fails: for a project root that does not exist discovery
    returns the empty list without an error, and the run goes on to the
    cross-file analyzers and the report. *)
Lemma missing_root_is_reported_not_fatal :
  getAllFiles "/nowhere" (tree missing_root_world) [] = Ok [] /\
  main sample_parse missing_root_world =
  Exited 1
    (preamble "/nowhere" 0 ++
     fst (generateReport "/nowhere"
            (mkIssues [] [noTestsFinding] [] [] [noPackageJsonFinding])))%list.
Proof. split; reflexivity. Qed.

(** C4, amended.  A project root that does not exist is not an error.
    Called on a directory that does not exist, [getAllFiles] returns the
    list it was given; for a missing project root the run therefore
    proceeds with no files through the cross-file analyzers, records the
    no-tests and no-manifest findings and ends with the report and status
    1. *)
Theorem missing_root_is_skipped :
  (forall (dir : string) (fileList : list string),
     getAllFiles dir Gone fileList = Ok fileList) /\
  (forall (JSON_parse : string -> result json) (root : string),
     main JSON_parse (mkWorld root Gone) =
     Exited 1
       (preamble root 0 ++
        fst (generateReport root
               (mkIssues [] [noTestsFinding] [] [] [noPackageJsonFinding])))%list).
Proof.
  split; [reflexivity|].
  intros JSON_parse root.
  unfold main, analyze, checkForDuplicates, checkForTests, checkPackageJson.
  simpl. rewrite existsSync_gone. reflexivity.
Qed.

(** ** The package manifest *)

Lemma checkForDuplicates_ok (w : World) (files : list string) (st : State) :
  getAllFiles (projectRoot w) (tree w) [] = Ok files ->
  checkForDuplicates w st =
  Ok (fold_left (fun st entry => checkServiceGroup (projectRoot w) entry st)
        (serviceMap (filter isServiceFile files)) st).
Proof. intros H. unfold checkForDuplicates. now rewrite H. Qed.








(** ** Line rules *)

(** C2.  What the script does with two consecutive lines that match the
    same rule.  The pattern of the [console.log] rule matches either line
    when tried on its own, yet [checkFile] reports line 1 only: the rule's
    RegExp is global, [test] left its [lastIndex] at 14, and the test of
    line 2 starts there.  The same line 2 is reported when line 1 does not
    match. *)
Theorem second_matching_line_is_skipped :
  test flags_g (lit "console.log(") 0 "  console.log(1)" = (true, 14) /\
  test flags_g (lit "console.log(") 0 "console.log(2)" = (true, 12) /\
  test flags_g (lit "console.log(") 14 "console.log(2)" = (false, 0) /\
  (exists st',
     checkFile two_logs_world "/p/a.js" initial_state = Ok st' /\
     ISSUES st' =
     mkIssues [] []
       [mkFinding "a.js" 1 "console.log found (use proper logging)"
          "console.log(1)"] [] []) /\
  (exists st',
     checkFile two_logs_world "/p/b.js" initial_state = Ok st' /\
     ISSUES st' =
     mkIssues [] []
       [mkFinding "b.js" 2 "console.log found (use proper logging)"
          "console.log(2)"] [] []).
Proof.
  repeat split; try reflexivity; eexists; split; reflexivity.
Qed.

(** ** Images without [alt] *)








(** ** Duplicate service files *)











Lemma relative_path (root r : string) :
  replace (root ++ "/") "" (root ++ "/" ++ r) = r.
Proof. rewrite <- append_assoc. apply replace_prefix. Qed.




(** * Further properties *)

(** ** Discovery *)

Lemma fsnode_nested_ind (P : fsnode -> Prop) :
  (forall c, P (File c)) ->
  (forall e, P (Locked e)) ->
  P Gone ->
  (forall entries, Forall (fun e => P (snd e)) entries -> P (Dir entries)) ->
  forall node, P node.
Proof.
  intros HF HL HG HD. fix IH 1. intros [c|entries|e|].
  - apply HF.
  - apply HD. induction entries as [|[name child] entries IHe];
      constructor; [apply IH | exact IHe].
  - apply HL.
  - apply HG.
Qed.

(** An ignored entry can be dropped from a directory without changing
    what is discovered. *)
Lemma getAllFiles_drop_ignored (dir name : string) (child : fsnode)
    (pre post : list (string * fsnode)) (fileList : list string) :
  ignored_entry name child = true ->
  getAllFiles dir (Dir (pre ++ (name, child) :: post)) fileList =
  getAllFiles dir (Dir (pre ++ post)) fileList.
Proof.
  intros Hign. revert fileList.
  induction pre as [|[file c] pre IH]; intros fileList.
  - rewrite !app_nil_l, getAllFiles_cons.
    destruct child as [content|entries|e|]; unfold ignored_entry in Hign.
    + apply negb_true_iff in Hign. now rewrite Hign.
    + now rewrite Hign.
    + now rewrite Hign.
    + discriminate.
  - rewrite <- !app_comm_cons, !getAllFiles_cons.
    destruct c as [content|entries|e|].
    + destruct (array_includes SUPPORTED_EXTENSIONS (extname file)); apply IH.
    + destruct (negb (array_includes SKIPPED_DIRECTORIES file)); [|apply IH].
      destruct (getAllFiles (path_join dir file) (Dir entries) fileList);
        [apply IH | reflexivity].
    + destruct (negb (array_includes SKIPPED_DIRECTORIES file)); [|apply IH].
      reflexivity.
    + reflexivity.
Qed.

Lemma endsWith_split (p s : string) :
  endsWith p s = true -> exists a, s = a ++ p.
Proof.
  unfold endsWith. intros H. apply andb_true_iff in H. destruct H as [Hle H].
  apply Nat.leb_le in Hle. apply String.eqb_eq in H.
  remember (String.length s - String.length p) as k eqn:Ek. clear Ek Hle.
  revert s H. induction k as [|k IH]; intros s H.
  - exists EmptyString. destruct s; simpl in H; now subst.
  - destruct s as [|c s]; simpl in H.
    + exists EmptyString. now subst.
    + destruct (IH s H) as [a Ha]. exists (String c a). simpl. now rewrite Ha.
Qed.

Lemma path_join_prefix (dir name : string) :
  path_join dir name = path_prefix dir ++ name.
Proof.
  unfold path_join, path_prefix. destruct (endsWith "/" dir); [reflexivity|].
  now rewrite append_assoc.
Qed.

(** The general shape of a discovery run: the list it was given, followed
    by paths that satisfy [Q], provided [Q] holds of a supported file of a
    directory and passes from a subdirectory to its parent. *)
Lemma getAllFiles_added (ok : string -> bool) (Q : string -> string -> Prop) :
  (forall dir file,
     ok file = true ->
     array_includes SUPPORTED_EXTENSIONS (extname file) = true ->
     Q dir (path_join dir file)) ->
  (forall dir file p, ok file = true -> Q (path_join dir file) p -> Q dir p) ->
  forall node,
    names_ok ok node = true ->
    forall dir fileList fileList',
      getAllFiles dir node fileList = Ok fileList' ->
      exists added,
        fileList' = (fileList ++ added)%list /\ Forall (Q dir) added.
Proof.
  intros Hfile Hsub node.
  induction node as [c|e| |entries IHe] using fsnode_nested_ind;
    intros Hok dir fileList fileList' H.
  - discriminate.
  - discriminate.
  - injection H as <-. exists []. now rewrite app_nil_r.
  - revert fileList H.
    induction entries as [|[file child] entries IH]; intros fileList H.
    + injection H as <-. exists []. now rewrite app_nil_r.
    + simpl in Hok. apply andb_true_iff in Hok. destruct Hok as [Hhead Hok].
      apply andb_true_iff in Hhead. destruct Hhead as [Hname Hchild].
      inversion IHe as [|? ? IHchild IHrest]; subst.
      specialize (IH IHrest Hok).
      rewrite getAllFiles_cons in H.
      assert (Hcont : forall l,
                getAllFiles dir (Dir entries) l = Ok fileList' ->
                forall mid, l = (fileList ++ mid)%list -> Forall (Q dir) mid ->
                exists added,
                  fileList' = (fileList ++ added)%list /\ Forall (Q dir) added).
      { intros l Hl mid -> Hmid. destruct (IH _ Hl) as [added [-> Hadded]].
        exists (mid ++ added)%list. split; [now rewrite app_assoc|].
        now apply Forall_app. }
      destruct child as [c|sub|e|].
      * destruct (array_includes SUPPORTED_EXTENSIONS (extname file)) eqn:E.
        -- apply (Hcont _ H [path_join dir file]); [reflexivity|].
           constructor; [now apply Hfile | constructor].
        -- apply (Hcont _ H []); [now rewrite app_nil_r | constructor].
      * destruct (negb (array_includes SKIPPED_DIRECTORIES file)).
        -- destruct (getAllFiles (path_join dir file) (Dir sub) fileList)
             as [l|e] eqn:E; [|discriminate].
           destruct (IHchild Hchild _ _ _ E) as [mid [-> Hmid]].
           apply (Hcont _ H mid); [reflexivity|].
           eapply Forall_impl; [|exact Hmid]. intros p Hp.
           now apply (Hsub dir file).
        -- apply (Hcont _ H []); [now rewrite app_nil_r | constructor].
      * destruct (negb (array_includes SKIPPED_DIRECTORIES file));
          [discriminate|].
        apply (Hcont _ H []); [now rewrite app_nil_r | constructor].
      * discriminate.
Qed.

Lemma names_ok_any (node : fsnode) : names_ok (fun _ => true) node = true.
Proof.
  induction node as [c|e| |entries IHe] using fsnode_nested_ind;
    try reflexivity.
  simpl. induction IHe as [|[name child] entries Hc _ IH]; simpl;
    [reflexivity|]. simpl in Hc. now rewrite Hc, IH.
Qed.

(** X1.  [getAllFiles] passes over directories of the deny-list, with all
    they contain and whether or not they can be listed, and over files
    whose extension is not supported: the result is that of the directory
    without the entry. *)
Theorem ignored_entries_do_not_matter (dir name : string) (child : fsnode)
    (pre post : list (string * fsnode)) (fileList : list string) :
  ignored_entry name child = true ->
  getAllFiles dir (Dir (pre ++ (name, child) :: post)) fileList =
  getAllFiles dir (Dir (pre ++ post)) fileList.
Proof. apply getAllFiles_drop_ignored. Qed.

Lemma ignored_entries_do_not_matter_witness :
  getAllFiles "/p"
    (Dir ([("a.ts", File (Ok "x"))] ++
          ("node_modules", Dir [("lib.js", File (Ok "y"))]) ::
          [("b.py", File (Ok "z"))])) [] =
  getAllFiles "/p"
    (Dir ([("a.ts", File (Ok "x"))] ++ [("b.py", File (Ok "z"))])) [].
Proof.
  apply (ignored_entries_do_not_matter "/p" "node_modules"
           (Dir [("lib.js", File (Ok "y"))])).
  reflexivity.
Defined.

Lemma getAllFiles_below (node : fsnode) (dir : string)
    (fileList fileList' : list string) :
  getAllFiles dir node fileList = Ok fileList' ->
  exists added,
    fileList' = (fileList ++ added)%list /\
    Forall (fun p => exists rest, p = path_prefix dir ++ rest) added.
Proof.
  apply (getAllFiles_added (fun _ => true)
           (fun dir p => exists rest, p = path_prefix dir ++ rest)).
  - intros d file _ _. exists file. apply path_join_prefix.
  - intros d file p _ [rest ->]. rewrite path_join_prefix.
    unfold path_prefix at 1.
    destruct (endsWith "/" (path_prefix d ++ file)).
    + exists (file ++ rest). now rewrite append_assoc.
    + exists (file ++ "/" ++ rest). now rewrite !append_assoc.
  - apply names_ok_any.
Qed.

(** X2.  A successful [getAllFiles] returns the list it was given followed
    by the discovered paths, and every discovered path lies below the
    directory it was started on. *)
Theorem discovered_paths_lie_below_the_directory (node : fsnode)
    (dir : string) (fileList fileList' : list string) :
  getAllFiles dir node fileList = Ok fileList' ->
  exists added,
    fileList' = (fileList ++ added)%list /\
    Forall (fun p => exists rest, p = path_prefix dir ++ rest) added.
Proof. apply getAllFiles_below. Qed.

Lemma discovered_paths_lie_below_the_directory_witness :
  exists added,
    ["/p/src/App.tsx"; "/p/src/query.sql"; "/p/index.html"] = ([] ++ added)%list /\
    Forall (fun p => exists rest, p = path_prefix "/p" ++ rest) added.
Proof.
  apply (discovered_paths_lie_below_the_directory discovery_tree "/p" []).
  reflexivity.
Defined.

Lemma strip_plain (s : string) :
  plain_name s = true -> stripTrailingSlashes s = s.
Proof.
  unfold plain_name. induction s as [|c s IH]; simpl; intros H; [reflexivity|].
  unfold slash in *. destruct (Ascii.eqb c "/"); simpl in *; [discriminate|].
  now rewrite IH.
Qed.

Lemma strip_append_plain (a b : string) :
  plain_name b = true -> b <> EmptyString ->
  stripTrailingSlashes (a ++ b) = a ++ b.
Proof.
  intros Hb Hne. induction a as [|c a IH]; simpl.
  - now apply strip_plain.
  - rewrite IH. destruct (a ++ b) eqn:E.
    + destruct a; simpl in E; [now elim Hne | discriminate].
    + now rewrite andb_false_r.
Qed.

Lemma split_plain (s : string) :
  plain_name s = true -> split slash s = [s].
Proof.
  unfold plain_name. induction s as [|c s IH]; simpl; intros H; [reflexivity|].
  destruct (Ascii.eqb c slash); simpl in *; [discriminate|].
  now rewrite IH.
Qed.

(** The extension of a path is that of its last segment. *)
Lemma extname_path_join (dir file : string) :
  plain_name file = true -> file <> EmptyString ->
  extname (path_join dir file) = extname file.
Proof.
  intros Hplain Hne.
  assert (Hp : exists a, path_prefix dir = a ++ "/").
  { unfold path_prefix. destruct (endsWith "/" dir) eqn:E.
    - now apply endsWith_split.
    - now exists dir. }
  destruct Hp as [a Ha].
  rewrite path_join_prefix. unfold extname.
  rewrite strip_append_plain, Ha, append_assoc by assumption.
  change ("/" ++ file) with (String slash file).
  rewrite pop_split_append, strip_plain by assumption. reflexivity.
Qed.

Lemma supported_extension_cases (e : string) :
  array_includes SUPPORTED_EXTENSIONS e = true ->
  In e SUPPORTED_EXTENSIONS.
Proof.
  unfold array_includes. intros H. apply existsb_exists in H.
  destruct H as [x [Hin Hx]]. apply String.eqb_eq in Hx. now subst.
Qed.

(** X3.  On a tree whose entry names contain no slash, every discovered
    path has one of the supported extensions, and [getPatternsForFile]
    finds a pattern table for it. *)
Theorem discovered_files_have_a_pattern_table (node : fsnode) (dir : string)
    (files : list string) :
  names_ok plain_name node = true ->
  getAllFiles dir node [] = Ok files ->
  Forall (fun p =>
            array_includes SUPPORTED_EXTENSIONS (extname p) = true /\
            getPatternsForFile p <> None) files.
Proof.
  intros Hnames Hrun.
  assert (H : exists added,
            files = ([] ++ added)%list /\
            Forall (fun p =>
                      array_includes SUPPORTED_EXTENSIONS (extname p) = true /\
                      getPatternsForFile p <> None) added).
  { apply (getAllFiles_added plain_name
             (fun _ p =>
                array_includes SUPPORTED_EXTENSIONS (extname p) = true /\
                getPatternsForFile p <> None)) with (node := node) (dir := dir);
      try assumption.
    - intros d file Hplain Hsupp.
      assert (Hne : file <> EmptyString) by (intros ->; discriminate).
      unfold getPatternsForFile, getFileExtension.
      rewrite extname_path_join by assumption.
      split; [exact Hsupp|].
      apply supported_extension_cases in Hsupp. simpl in Hsupp.
      repeat (destruct Hsupp as [<-|Hsupp]; [discriminate|]). contradiction.
    - intros d file p _ Hp. exact Hp. }
  destruct H as [added [-> Hadded]]. exact Hadded.
Qed.

Lemma discovered_files_have_a_pattern_table_witness :
  Forall (fun p =>
            array_includes SUPPORTED_EXTENSIONS (extname p) = true /\
            getPatternsForFile p <> None)
    ["/p/src/App.tsx"; "/p/src/query.sql"; "/p/index.html"].
Proof.
  apply (discovered_files_have_a_pattern_table discovery_tree "/p");
    reflexivity.
Defined.

(** X4.  The classifier and the allow-list of discovery agree up to case:
    [getPatternsForFile] finds a table exactly for the paths whose
    lower-cased extension is one of [SUPPORTED_EXTENSIONS]. *)
Theorem pattern_table_iff_supported_extension (filePath : string) :
  match getPatternsForFile filePath with
  | Some _ =>
      array_includes SUPPORTED_EXTENSIONS (getFileExtension filePath) = true
  | None =>
      array_includes SUPPORTED_EXTENSIONS (getFileExtension filePath) = false
  end.
Proof.
  unfold getPatternsForFile, array_includes, SUPPORTED_EXTENSIONS.
  set (ext := getFileExtension filePath). simpl.
  repeat match goal with
         | |- context [String.eqb ext ?l] => destruct (String.eqb ext l)
         end; reflexivity.
Qed.

(** X5.  For a project root that does not end in a slash, the relative
    path [checkFile] computes for a discovered file leads back to the
    file: the root, a slash and the relative path make the discovered
    path. *)
Theorem relative_path_round_trip (w : World) (files : list string) :
  endsWith "/" (projectRoot w) = false ->
  getAllFiles (projectRoot w) (tree w) [] = Ok files ->
  Forall (fun p =>
            projectRoot w ++ "/" ++ replace (projectRoot w ++ "/") "" p = p)
    files.
Proof.
  intros Hroot Hrun.
  destruct (getAllFiles_below _ _ _ _ Hrun) as [added [-> Hadded]].
  simpl. eapply Forall_impl; [|exact Hadded].
  intros p [rest ->]. unfold path_prefix. rewrite Hroot.
  rewrite replace_prefix. now rewrite append_assoc.
Qed.

Lemma relative_path_round_trip_witness :
  Forall (fun p => "/p" ++ "/" ++ replace ("/p" ++ "/") "" p = p)
    ["/p/api/UserService.ts"; "/p/legacy/userservice.js";
     "/p/legacy/order_service.py"].
Proof.
  apply (relative_path_round_trip services_world); reflexivity.
Defined.

Lemma prefix_append_r (p a b : string) :
  prefix p a = true -> prefix p (a ++ b) = true.
Proof.
  revert a. induction p as [|c p IH]; intros a H; [now destruct (a ++ b)|].
  destruct a as [|x a]; simpl in *; [discriminate|].
  destruct (ascii_dec c x); [now apply IH | discriminate].
Qed.

Lemma includes_append_l (p a b : string) :
  includes p a = true -> includes p (a ++ b) = true.
Proof.
  induction a as [|c a IH]; cbn [includes append]; intros H.
  - destruct p; [now destruct b | discriminate].
  - apply orb_true_iff in H. destruct H as [H|H].
    + change (String c (a ++ b)) with (String c a ++ b).
      now rewrite (prefix_append_r _ _ _ H).
    + rewrite (IH H). apply orb_true_r.
Qed.

Lemma isTestFile_append (a b : string) :
  isTestFile a = true -> isTestFile (a ++ b) = true.
Proof.
  unfold isTestFile. intros H.
  repeat (apply orb_true_iff in H; destruct H as [H|H]);
    rewrite (includes_append_l _ _ b H); rewrite ?orb_true_r; reflexivity.
Qed.

(** X6.  The test markers are looked for in the whole path.  When the
    path of the project root itself holds one (a directory named
    [__tests__], say), every discovered file counts as a test file, and
    [checkForTests] records nothing as soon as one file is discovered. *)
Theorem marker_in_root_hides_missing_tests (w : World) (files : list string)
    (st : State) :
  isTestFile (projectRoot w) = true ->
  getAllFiles (projectRoot w) (tree w) [] = Ok files ->
  files <> [] ->
  checkForTests w st = Ok st.
Proof.
  intros Hroot Hrun Hne. unfold checkForTests. rewrite Hrun.
  destruct (getAllFiles_below _ _ _ _ Hrun) as [added [-> Hadded]].
  simpl in *.
  assert (Hall : filter isTestFile added = added).
  { clear Hne Hrun. induction Hadded as [|p l [rest ->] _ IH]; simpl;
      [reflexivity|].
    rewrite isTestFile_append; [now rewrite IH|].
    unfold path_prefix. destruct (endsWith "/" (projectRoot w));
      [exact Hroot | now apply isTestFile_append]. }
  rewrite Hall. destruct added; [now elim Hne | reflexivity].
Qed.

Lemma marker_in_root_hides_missing_tests_witness :
  checkForTests marker_root_world initial_state = Ok initial_state.
Proof.
  apply (marker_in_root_hides_missing_tests marker_root_world
           ["/work/__tests__/app/main.js"]);
    [reflexivity | reflexivity | discriminate].
Defined.

(** ** Line rules from a clean state *)

Lemma applyPatterns_clean (rules : list Rule.t) :
  forall lis rel line idx store,
    Forall (fun li => li = 0) lis ->
    applyPatterns rules lis rel line idx store =
    (map (fun r => snd (test (Rule.flags r) (Rule.pattern r) 0 line)) rules,
     reportMatching rules rel line idx store).
Proof.
  induction rules as [|r rules IH]; intros lis rel line idx store Hlis;
    [reflexivity|].
  assert (Hhd : hd 0 lis = 0) by (destruct Hlis; [reflexivity | assumption]).
  assert (Htl : Forall (fun li => li = 0) (tl lis))
    by (destruct Hlis; [constructor | assumption]).
  cbn [applyPatterns]. rewrite Hhd.
  unfold reportMatching, matches_fresh, lineFinding. cbn [fold_left map].
  destruct (test (Rule.flags r) (Rule.pattern r) 0 line) as [found li].
  rewrite (IH _ _ _ _ _ Htl). reflexivity.
Qed.

(** A test that fails from index 0 leaves [lastIndex] at 0, with or
    without the [g] flag. *)
Lemma test_fresh_failure (fl : Flags) (r : regex) (s : string) :
  fst (test fl r 0 s) = false -> snd (test fl r 0 s) = 0.
Proof.
  unfold test, exec. destruct (global fl); simpl;
    destruct (search fl r None s 0); simpl; intros H;
    (discriminate || reflexivity).
Qed.

(** X7.  When the [lastIndex] of every rule of the table is 0, the line
    rules are stateless on the next line.  For a line of ASCII text (on
    which [trim], [substring] and the white space of the patterns are
    those of the script) [checkLine] records exactly one finding for every
    rule whose pattern matches the line, in table order, with the line
    number and the trimmed line cut to 80 characters; and the rules that
    did not match are left with [lastIndex] 0. *)
Theorem clean_state_reports_every_matching_rule (t : Table)
    (relativePath line : string) (index : nat) (st : State) :
  isASCII line = true ->
  Forall (fun li => li = 0) (lastIndex_of t st) ->
  ISSUES (checkLine t relativePath line index st) =
    reportMatching (rules_of t) relativePath line index (ISSUES st) /\
  Forall2 (fun r li => matches_fresh r line = false -> li = 0)
    (rules_of t) (lastIndex_of t (checkLine t relativePath line index st)).
Proof.
  intros _ Hclean. unfold checkLine.
  rewrite (applyPatterns_clean _ _ _ _ _ _ Hclean).
  split; [now destruct t|].
  assert (H : lastIndex_of t
                (set_issues
                   (set_lastIndex t
                      (map (fun r =>
                              snd (test (Rule.flags r) (Rule.pattern r) 0 line))
                         (rules_of t)) st)
                   (reportMatching (rules_of t) relativePath line index
                      (ISSUES st))) =
              map (fun r => snd (test (Rule.flags r) (Rule.pattern r) 0 line))
                (rules_of t)) by now destruct t.
  rewrite H. clear H Hclean.
  induction (rules_of t) as [|r rules IH]; simpl; constructor; [|exact IH].
  apply test_fresh_failure.
Qed.

Lemma clean_state_reports_every_matching_rule_witness :
  ISSUES (checkLine TS_JS "a.ts" "  const x: any = f(); // TODO" 6 initial_state) =
    reportMatching (rules_of TS_JS) "a.ts" "  const x: any = f(); // TODO" 6
      (ISSUES initial_state) /\
  Forall2 (fun r li =>
             matches_fresh r "  const x: any = f(); // TODO" = false -> li = 0)
    (rules_of TS_JS)
    (lastIndex_of TS_JS
       (checkLine TS_JS "a.ts" "  const x: any = f(); // TODO" 6 initial_state)).
Proof.
  apply (clean_state_reports_every_matching_rule TS_JS "a.ts"
           "  const x: any = f(); // TODO" 6 initial_state).
  - reflexivity.
  - repeat constructor.
Defined.

Lemma reportMatching_quiet (rules : list Rule.t) (rel line : string)
    (idx : nat) (store : IssueStore) :
  quiet_line rules line = true ->
  reportMatching rules rel line idx store = store.
Proof.
  unfold quiet_line, reportMatching. revert store.
  induction rules as [|r rules IH]; intros store H; simpl in *; [reflexivity|].
  apply andb_true_iff in H. destruct H as [Hr H].
  apply negb_true_iff in Hr. rewrite Hr. now apply IH.
Qed.

Lemma quiet_lastIndexes (rules : list Rule.t) (line : string) :
  quiet_line rules line = true ->
  map (fun r => snd (test (Rule.flags r) (Rule.pattern r) 0 line)) rules =
  map (fun _ => 0) rules.
Proof.
  unfold quiet_line. induction rules as [|r rules IH]; simpl; intros H;
    [reflexivity|].
  apply andb_true_iff in H. destruct H as [Hr H].
  apply negb_true_iff in Hr. rewrite (test_fresh_failure _ _ _ Hr).
  now rewrite IH.
Qed.

Lemma checkLine_quiet (t : Table) (rel line : string) (idx : nat) (st : State) :
  lastIndex_of t st = map (fun _ => 0) (rules_of t) ->
  quiet_line (rules_of t) line = true ->
  checkLine t rel line idx st = st.
Proof.
  intros Hclean Hquiet. unfold checkLine.
  rewrite applyPatterns_clean
    by (rewrite Hclean; apply Forall_forall; intros x Hx;
        apply in_map_iff in Hx; now destruct Hx as [? [<- _]]).
  rewrite (reportMatching_quiet _ _ _ _ _ Hquiet).
  rewrite (quiet_lastIndexes _ _ Hquiet), <- Hclean.
  destruct st, t; reflexivity.
Qed.

Lemma forEach_checkLine_quiet (t : Table) (rel : string) (lines : list string) :
  forall idx st,
    lastIndex_of t st = map (fun _ => 0) (rules_of t) ->
    forallb (quiet_line (rules_of t)) lines = true ->
    forEach_indexed (checkLine t rel) lines idx st = st.
Proof.
  induction lines as [|line lines IH]; intros idx st Hclean H; simpl in *;
    [reflexivity|].
  apply andb_true_iff in H. destruct H as [Hl H].
  rewrite (checkLine_quiet _ _ _ _ _ Hclean Hl). now apply IH.
Qed.

Lemma script_extension (filePath : string) :
  getPatternsForFile filePath = Some TS_JS ->
  String.eqb (getFileExtension filePath) ".py" = false /\
  array_includes [".html"; ".htm"] (getFileExtension filePath) = false /\
  String.eqb (getFileExtension filePath) ".sql" = false.
Proof.
  unfold getPatternsForFile. set (ext := getFileExtension filePath).
  destruct (array_includes [".ts"; ".tsx"; ".js"; ".jsx"] ext) eqn:E.
  - intros _. unfold array_includes in E. apply existsb_exists in E.
    destruct E as [x [Hin Hx]]. apply String.eqb_eq in Hx. subst x.
    simpl in Hin.
    repeat (destruct Hin as [<-|Hin]; [repeat split; reflexivity|]).
    contradiction.
  - destruct (String.eqb ext ".py"); [discriminate|].
    destruct (array_includes [".html"; ".htm"] ext); [discriminate|].
    destruct (String.eqb ext ".sql"); discriminate.
Qed.

(** X8.  A TypeScript or JavaScript file of ASCII text within the size
    limits, none of whose lines matches a rule, leaves the state of a run
    whose TS/JS rules are at [lastIndex] 0 exactly as it was: no finding,
    no change of [lastIndex].  (On ASCII text a pattern matches a line in
    the embedding exactly when it does in the script.) *)
Theorem quiet_script_file_changes_nothing (w : World) (filePath content : string)
    (st : State) :
  readFileSync w filePath = Ok content ->
  isASCII content = true ->
  getPatternsForFile filePath = Some TS_JS ->
  lineCount content <= MAX_COMPONENT_SIZE ->
  ts_js_lastIndex st = [0; 0; 0; 0] ->
  forallb (quiet_line TS_JS_PATTERNS) (split LF content) = true ->
  checkFile w filePath st = Ok st.
Proof.
  intros Hread _ Htable Hsize Hclean Hquiet.
  unfold checkFile. rewrite Hread, Htable. fold (lineCount content).
  assert (H1 : (MAX_FILE_SIZE <? lineCount content) = false)
    by (apply Nat.ltb_ge; unfold MAX_FILE_SIZE, MAX_COMPONENT_SIZE in *; lia).
  assert (H2 : (MAX_COMPONENT_SIZE <? lineCount content) = false)
    by (now apply Nat.ltb_ge).
  rewrite H1, H2, andb_false_r.
  rewrite (forEach_checkLine_quiet TS_JS _ _ _ _ Hclean Hquiet).
  destruct (script_extension _ Htable) as [-> [-> ->]]. reflexivity.
Qed.

Lemma quiet_script_file_changes_nothing_witness :
  checkFile quiet_world "/p/util.ts" initial_state = Ok initial_state.
Proof.
  apply (quiet_script_file_changes_nothing quiet_world "/p/util.ts"
           ("export const one = 1;" ++ newline ++
            "export const two = 2;" ++ newline) initial_state);
    try reflexivity.
  vm_compute. lia.
Defined.

(** ** What [checkFile] may add to the store *)

Lemma forEach_indexed_grows_in (P : Finding -> Prop) {A : Type}
    (f : A -> nat -> State -> State) (l : list A) :
  forall i st,
    (forall x k st0, i <= k < i + List.length l -> grows P st0 (f x k st0)) ->
    grows P st (forEach_indexed f l i st).
Proof.
  induction l as [|x l IH]; intros i st Hf; simpl.
  - apply grows_refl.
  - eapply grows_trans; [apply (Hf x i st); simpl; lia|].
    apply IH. intros y k st0 Hk. apply Hf. simpl. lia.
Qed.

Lemma applyPatterns_extends_at (P : Finding -> Prop) (rel line : string)
    (idx : nat) (rules : list Rule.t) :
  (forall msg c, P (mkFinding rel (idx + 1) msg c)) ->
  forall lis store,
    extends P store (snd (applyPatterns rules lis rel line idx store)).
Proof.
  intros HP. induction rules as [|r rules IH]; intros lis store; simpl.
  - apply extends_refl.
  - destruct (test (Rule.flags r) (Rule.pattern r) (hd 0 lis) line)
      as [found li].
    match goal with
    | |- context [applyPatterns rules ?a ?b ?c ?d ?e] =>
        specialize (IH a e);
        destruct (applyPatterns rules a b c d e) as [lis' store'] eqn:E
    end.
    simpl in *. eapply extends_trans; [|exact IH].
    destruct found; [apply extends_push, HP | apply extends_refl].
Qed.

Lemma count_char_take_le (c : ascii) (s : string) (n : nat) :
  count_char c (take n s) <= count_char c s.
Proof.
  unfold take. revert n. induction s as [|x s IH]; intros [|n]; simpl;
    try lia. specialize (IH n). lia.
Qed.

Lemma lineCount_positive (content : string) : 1 <= lineCount content.
Proof. unfold lineCount. rewrite split_length. lia. Qed.

Lemma checkFile_grows_about_file (w : World) (filePath content : string)
    (st : State) :
  readFileSync w filePath = Ok content ->
  exists st',
    checkFile w filePath st = Ok st' /\
    grows (about_file (replace (projectRoot w ++ "/") "" filePath)
             (lineCount content)) st st'.
Proof.
  intros Hread. unfold checkFile. rewrite Hread.
  set (rel := replace (projectRoot w ++ "/") "" filePath).
  fold (lineCount content). set (n := lineCount content).
  pose proof (lineCount_positive content) as Hn. fold n in Hn.
  assert (Hline1 : forall msg c, about_file rel n (mkFinding rel 1 msg c))
    by (intros; repeat split; simpl; lia).
  assert (Hidx : forall k msg c, k < n ->
            about_file rel n (mkFinding rel (k + 1) msg c))
    by (intros; repeat split; simpl; lia).
  set (b1 := MAX_FILE_SIZE <? n).
  set (b2 := endsWith ".tsx" filePath && (MAX_COMPONENT_SIZE <? n)).
  match goal with
  | |- context [if b1 then report high ?f st else st] =>
      set (st1 := if b1 then report high f st else st)
  end.
  match goal with
  | |- context [if b2 then report medium ?f st1 else st1] =>
      set (st2 := if b2 then report medium f st1 else st1)
  end.
  set (st3 := match getPatternsForFile filePath with
              | Some t => forEach_indexed (checkLine t rel) (split LF content) 0 st2
              | None => st2
              end).
  eexists. split; [reflexivity|].
  assert (H01 : grows (about_file rel n) st st1)
    by (apply grows_if_report, Hline1).
  assert (H12 : grows (about_file rel n) st1 st2)
    by (apply grows_if_report, Hline1).
  assert (H23 : grows (about_file rel n) st2 st3).
  { unfold st3. destruct (getPatternsForFile filePath) as [t|];
      [|apply grows_refl].
    apply forEach_indexed_grows_in. intros line k st0 Hk.
    unfold grows, checkLine.
    assert (Hk' : k < n) by (unfold n, lineCount; lia).
    pose proof (applyPatterns_extends_at (about_file rel n) rel line k
                  (rules_of t) (fun msg c => Hidx k msg c Hk')
                  (lastIndex_of t st0) (ISSUES st0)) as H.
    destruct (applyPatterns (rules_of t) (lastIndex_of t st0) rel line k
                (ISSUES st0)) as [lis store].
    exact H. }
  apply (grows_trans _ _ _ _ H01), (grows_trans _ _ _ _ H12),
    (grows_trans _ _ _ _ H23).
  destruct (String.eqb (getFileExtension filePath) ".py").
  { unfold checkPythonFile.
    eapply grows_trans; [|apply grows_if_report, Hline1].
    apply forEach_indexed_grows_in. intros line k st0 Hk.
    destruct (match_fresh no_flags functionDefRegex line); [|apply grows_refl].
    apply grows_if_report, Hidx. unfold n, lineCount. lia. }
  destruct (array_includes [".html"; ".htm"] (getFileExtension filePath)).
  { unfold checkHTMLFile.
    eapply grows_trans;
      [|apply fold_left_grows; intros st0 id; apply grows_if_report, Hline1].
    eapply grows_trans;
      [|apply fold_left_grows; intros st0 m; apply grows_if_report;
        repeat split; simpl;
        [ rewrite split_length; lia
        | unfold n, lineCount; rewrite !split_length;
          pose proof (count_char_take_le LF content (index m)); lia ]].
    apply grows_if_report, Hline1. }
  destruct (String.eqb (getFileExtension filePath) ".sql");
    [|apply grows_refl].
  unfold checkSQLFile.
  eapply grows_trans; [|apply grows_if_report, Hline1].
  eapply grows_trans; [|apply grows_if_report, Hline1].
  apply grows_if_report, Hline1.
Qed.

(** X9.  Whatever a readable file holds, [checkFile] only appends to the
    buckets of the store: the findings that were there stay in place, and
    every finding it adds carries the file's relative path and a line
    number between 1 and the file's line count. *)
Theorem checkFile_adds_findings_about_the_file (w : World)
    (filePath content : string) (st : State) :
  readFileSync w filePath = Ok content ->
  exists st',
    checkFile w filePath st = Ok st' /\
    forall sev, exists added,
      bucket sev (ISSUES st') = (bucket sev (ISSUES st) ++ added)%list /\
      Forall (about_file (replace (projectRoot w ++ "/") "" filePath)
                (lineCount content)) added.
Proof.
  intros Hread.
  destruct (checkFile_grows_about_file w filePath content st Hread)
    as [st' [Hrun Hgrows]].
  exists st'. split; [exact Hrun | exact Hgrows].
Qed.

Lemma checkFile_adds_findings_about_the_file_witness :
  exists st',
    checkFile two_images_world "/p/i.html" initial_state = Ok st' /\
    forall sev, exists added,
      bucket sev (ISSUES st') =
        (bucket sev (ISSUES initial_state) ++ added)%list /\
      Forall (about_file (replace ("/p" ++ "/") "" "/p/i.html")
                (lineCount two_images)) added.
Proof.
  apply (checkFile_adds_findings_about_the_file two_images_world "/p/i.html"
           two_images initial_state).
  reflexivity.
Defined.

(** ** The structural checks of HTML files *)









(** ** Duplicate detection in general *)

Lemma map_push_new (key value : string) (m : list (string * list string)) :
  ~ In key (map fst m) ->
  map_push key value m = (m ++ [(key, [value])])%list.
Proof.
  induction m as [|[k vs] m IH]; simpl; intros H; [reflexivity|].
  destruct (String.eqb k key) eqn:E.
  - apply String.eqb_eq in E. elim H. now left.
  - rewrite IH; [reflexivity|]. intros Hin. apply H. now right.
Qed.

Lemma serviceMap_distinct (key : string -> string) (l : list string) :
  forall m,
    NoDup (map key l) ->
    (forall f, In f l -> ~ In (key f) (map fst m)) ->
    fold_left (fun m f => map_push (key f) f m) l m =
    (m ++ map (fun f => (key f, [f])) l)%list.
Proof.
  induction l as [|f l IH]; intros m Hnd Hnew; simpl.
  - now rewrite app_nil_r.
  - inversion Hnd as [|? ? Hf Hnd']; subst.
    rewrite map_push_new by (apply Hnew; now left).
    rewrite IH; [now rewrite <- app_assoc| exact Hnd' |].
    intros g Hg Hin. rewrite map_app in Hin. apply in_app_or in Hin.
    destruct Hin as [Hin|[Hin|[]]].
    + apply (Hnew g); [now right | exact Hin].
    + simpl in Hin. apply Hf. rewrite Hin. now apply in_map.
Qed.

Lemma fold_checkServiceGroup_singletons (root : string)
    (key : string -> string) (l : list string) (st : State) :
  fold_left (fun st entry => checkServiceGroup root entry st)
    (map (fun f => (key f, [f])) l) st = st.
Proof.
  revert st. induction l as [|f l IH]; intros st; simpl; [reflexivity|].
  apply IH.
Qed.

(** X12.  Service files are only reported when two of them share a base
    name: if the paths of the discovered service files are ASCII text (on
    which [toLowerCase] is that of the script) and their base names are
    pairwise different, [checkForDuplicates] leaves the state as it is. *)
Theorem distinct_base_names_are_not_duplicates (w : World)
    (files : list string) (st : State) :
  getAllFiles (projectRoot w) (tree w) [] = Ok files ->
  Forall (fun f => isASCII f = true) (filter isServiceFile files) ->
  NoDup (map serviceBaseName (filter isServiceFile files)) ->
  checkForDuplicates w st = Ok st.
Proof.
  intros Hfiles _ Hnd. rewrite (checkForDuplicates_ok _ _ _ Hfiles).
  unfold serviceMap.
  rewrite serviceMap_distinct by (assumption || (intros f _ [])).
  simpl. now rewrite fold_checkServiceGroup_singletons.
Qed.

Lemma distinct_base_names_are_not_duplicates_witness :
  checkForDuplicates distinct_services_world initial_state = Ok initial_state.
Proof.
  apply (distinct_base_names_are_not_duplicates distinct_services_world
           ["/p/a/UserService.ts"; "/p/b/order_service.py"]).
  - reflexivity.
  - repeat constructor.
  - repeat constructor; simpl; intuition discriminate.
Defined.

Lemma unique_from_NoDup (seen l : list string) :
  NoDup l -> (forall x, In x l -> ~ In x seen) -> unique_from seen l = l.
Proof.
  revert seen. induction l as [|x l IH]; intros seen Hnd Hseen; simpl;
    [reflexivity|].
  inversion Hnd as [|? ? Hx Hnd']; subst.
  destruct (existsb (String.eqb x) seen) eqn:E.
  - apply existsb_exists in E. destruct E as [y [Hy E]].
    apply String.eqb_eq in E. subst y. elim (Hseen x); [now left | exact Hy].
  - f_equal. apply IH; [exact Hnd'|].
    intros y Hy [<-|Hin]; [contradiction|].
    apply (Hseen y); [now right | exact Hin].
Qed.

Lemma map_relative_paths (root : string) (rels : list string) :
  map (replace (root ++ "/") "") (map (fun r => root ++ "/" ++ r) rels) = rels.
Proof.
  induction rels as [|r rels IH]; cbn [map]; [reflexivity|].
  now rewrite relative_path, IH.
Qed.

(** X13.  A group of the service map with at least two files, at pairwise
    different relative paths below the root, yields one critical finding
    whose message names all paths of the group, in discovery order and
    separated by commas. *)
Theorem duplicate_group_names_all_its_paths (root key : string)
    (rels : list string) (st : State) :
  NoDup rels ->
  2 <= List.length rels ->
  ISSUES (checkServiceGroup root
            (key, map (fun r => root ++ "/" ++ r) rels) st) =
  push critical (duplicatesFinding rels) (ISSUES st).
Proof.
  intros Hnd Hlen. unfold checkServiceGroup. cbn [snd].
  rewrite map_relative_paths. unfold unique.
  rewrite unique_from_NoDup by (assumption || (intros x _ [])).
  rewrite length_map.
  assert (H : (1 <? List.length rels) = true) by (apply Nat.ltb_lt; lia).
  rewrite H. reflexivity.
Qed.

Lemma duplicate_group_names_all_its_paths_witness :
  ISSUES (checkServiceGroup "/p"
            ("payservice",
             map (fun r => "/p" ++ "/" ++ r)
               ["a/PayService.ts"; "b/payservice.js"; "c/PAYSERVICE.py"])
            initial_state) =
  push critical
    (duplicatesFinding ["a/PayService.ts"; "b/payservice.js"; "c/PAYSERVICE.py"])
    (ISSUES initial_state).
Proof.
  apply (duplicate_group_names_all_its_paths "/p" "payservice"
           ["a/PayService.ts"; "b/payservice.js"; "c/PAYSERVICE.py"]
           initial_state).
  - repeat constructor; simpl; intuition discriminate.
  - simpl. lia.
Defined.

(** ** The manifest inspection *)

(** X14.  A manifest that parses to a value other than [null] and has no
    [devDependencies] object (the key is missing, or holds something that
    is not an object) gets both findings, the medium one for ESLint and
    the high one for the test framework; what it lists under other keys,
    [dependencies] included, is not looked at. *)
Theorem manifest_without_devDependencies (JSON_parse : string -> result json)
    (w : World) (text : string) (v : json) (st : State) :
  readFileSync w (path_join (projectRoot w) "package.json") = Ok text ->
  JSON_parse text = Ok v ->
  v <> JNull ->
  declares_nothing v = true ->
  ISSUES (checkPackageJson JSON_parse w st) =
  push high noFrameworkFinding (push medium eslintFinding (ISSUES st)).
Proof.
  intros Hread Hparse Hnull Hnothing.
  unfold checkPackageJson, inspectPackageJson.
  rewrite (readFileSync_exists _ _ _ Hread), Hread, Hparse. simpl negb.
  cbn iota.
  assert (Hdev : devDependencies v = Ok (get_property v "devDependencies"))
    by (destruct v; try reflexivity; now elim Hnull).
  rewrite Hdev. unfold declares_nothing in Hnothing.
  assert (Hno : forall key,
            optional_property (get_property v "devDependencies") key = None).
  { intros key. destruct (get_property v "devDependencies") as [[]|];
      try reflexivity. discriminate. }
  rewrite !Hno. reflexivity.
Qed.

Lemma manifest_without_devDependencies_witness :
  ISSUES (checkPackageJson sample_parse2 bare_manifest_world initial_state) =
  push high noFrameworkFinding (push medium eslintFinding (ISSUES initial_state)).
Proof.
  apply (manifest_without_devDependencies sample_parse2 bare_manifest_world
           bare_manifest_text (JObject [("scripts", JObject [])]) initial_state);
    [reflexivity | reflexivity | discriminate | reflexivity].
Defined.

(** X15.  A manifest whose [devDependencies] object declares a linter
    ([eslint] or [@typescript-eslint/parser]) and one of the five known
    test frameworks, each with a truthy value, adds nothing: the state is
    unchanged. *)
Theorem manifest_with_linter_and_tests (JSON_parse : string -> result json)
    (w : World) (text : string) (v : json) (deps : list (string * json))
    (st : State) :
  readFileSync w (path_join (projectRoot w) "package.json") = Ok text ->
  JSON_parse text = Ok v ->
  get_property v "devDependencies" = Some (JObject deps) ->
  truthy (get_member "eslint" deps) ||
    truthy (get_member "@typescript-eslint/parser" deps) = true ->
  truthy (get_member "vitest" deps) || truthy (get_member "jest" deps) ||
    truthy (get_member "@testing-library/react" deps) ||
    truthy (get_member "mocha" deps) || truthy (get_member "ava" deps) = true ->
  checkPackageJson JSON_parse w st = st.
Proof.
  intros Hread Hparse Hdeps Hlint Htest.
  unfold checkPackageJson, inspectPackageJson.
  rewrite (readFileSync_exists _ _ _ Hread), Hread, Hparse. simpl negb.
  cbn iota.
  assert (Hdev : devDependencies v = Ok (Some (JObject deps))).
  { destruct v; simpl in Hdeps; try discriminate. simpl. now rewrite Hdeps. }
  rewrite Hdev. cbn [optional_property get_property].
  rewrite Htest. apply orb_true_iff in Hlint.
  destruct Hlint as [H|H]; rewrite H; simpl; rewrite ?andb_false_r; reflexivity.
Qed.

Lemma manifest_with_linter_and_tests_witness :
  checkPackageJson sample_parse2 good_manifest_world initial_state = initial_state.
Proof.
  apply (manifest_with_linter_and_tests sample_parse2 good_manifest_world
           good_manifest_text
           (JObject [("devDependencies",
                      JObject [("eslint", JString "^9.0.0");
                               ("vitest", JString "^2.0.0")])])
           [("eslint", JString "^9.0.0"); ("vitest", JString "^2.0.0")]
           initial_state);
    reflexivity.
Defined.

Lemma checkPackageJson_grows (JSON_parse : string -> result json) (w : World)
    (st : State) :
  grows (fun f => file f = "package.json" /\ line f = 0) st
    (checkPackageJson JSON_parse w st).
Proof.
  unfold checkPackageJson.
  destruct (negb (existsSync w (path_join (projectRoot w) "package.json"))).
  - apply grows_report. now split.
  - destruct (inspectPackageJson JSON_parse w
                (path_join (projectRoot w) "package.json") st) as [st'|e] eqn:E.
    + unfold inspectPackageJson in E.
      destruct (readFileSync w _); [|discriminate].
      destruct (JSON_parse a); [|discriminate].
      destruct (devDependencies a0); [|discriminate].
      injection E as <-.
      eapply grows_trans; [|apply grows_if_report; now split].
      apply grows_if_report. now split.
    + apply grows_report. now split.
Qed.

(** X16.  [checkPackageJson] never throws and only appends: whatever the
    disk holds and whatever [JSON.parse] does, the findings that were in
    the store stay in place, and the ones it adds are all filed under
    [package.json] at line 0. *)
Theorem manifest_inspection_only_appends (JSON_parse : string -> result json)
    (w : World) (st : State) (sev : Severity) :
  exists added,
    bucket sev (ISSUES (checkPackageJson JSON_parse w st)) =
      (bucket sev (ISSUES st) ++ added)%list /\
    Forall (fun f => file f = "package.json" /\ line f = 0) added.
Proof. apply checkPackageJson_grows. Qed.

(** ** Whole runs *)

Lemma checkFile_readable (w : World) (filePath content : string) (st : State) :
  readFileSync w filePath = Ok content ->
  exists st', checkFile w filePath st = Ok st'.
Proof. intros H. unfold checkFile. rewrite H. eauto. Qed.

Lemma checkFiles_readable (w : World) (files : list string) :
  Forall (fun p => exists content, readFileSync w p = Ok content) files ->
  forall st, exists st', checkFiles w files st = Ok st'.
Proof.
  induction 1 as [|p files [content Hp] _ IH]; intros st; simpl; [eauto|].
  destruct (checkFile_readable w p content st Hp) as [st1 ->]. apply IH.
Qed.

Lemma analyze_ok (JSON_parse : string -> result json) (w : World)
    (files : list string) (st1 : State) :
  getAllFiles (projectRoot w) (tree w) [] = Ok files ->
  checkFiles w files initial_state = Ok st1 ->
  exists st, analyze JSON_parse w files = Ok st.
Proof.
  intros Hfiles Hcheck. unfold analyze.
  rewrite Hcheck, (checkForDuplicates_ok _ _ _ Hfiles).
  unfold checkForTests. rewrite Hfiles. eauto.
Qed.

(** X17.  When discovery succeeds and every discovered file can be read,
    the run does not end in an uncaught exception: it writes the report
    and exits through [process.exit] with status 0 or 1. *)
Theorem readable_project_gets_a_report (JSON_parse : string -> result json)
    (w : World) (files : list string) :
  getAllFiles (projectRoot w) (tree w) [] = Ok files ->
  Forall (fun p => exists content, readFileSync w p = Ok content) files ->
  exists st,
    analyze JSON_parse w files = Ok st /\
    main JSON_parse w =
    Exited (snd (generateReport (projectRoot w) (ISSUES st)))
      (preamble (projectRoot w) (List.length files) ++
       fst (generateReport (projectRoot w) (ISSUES st)))%list /\
    snd (generateReport (projectRoot w) (ISSUES st)) <= 1.
Proof.
  intros Hfiles Hread.
  destruct (checkFiles_readable w files Hread initial_state) as [st1 Hcheck].
  destruct (analyze_ok JSON_parse w files st1 Hfiles Hcheck) as [st Han].
  exists st. split; [exact Han|]. split.
  - unfold main. rewrite Hfiles, Han.
    now destruct (generateReport (projectRoot w) (ISSUES st)).
  - rewrite generateReport_status.
    now destruct (_ =? 0); auto.
Qed.

Lemma readable_project_gets_a_report_witness :
  exists st,
    analyze sample_parse services_world
      ["/p/api/UserService.ts"; "/p/legacy/userservice.js";
       "/p/legacy/order_service.py"] = Ok st /\
    main sample_parse services_world =
    Exited (snd (generateReport "/p" (ISSUES st)))
      (preamble "/p" 3 ++ fst (generateReport "/p" (ISSUES st)))%list /\
    snd (generateReport "/p" (ISSUES st)) <= 1.
Proof.
  apply (readable_project_gets_a_report sample_parse services_world
           ["/p/api/UserService.ts"; "/p/legacy/userservice.js";
            "/p/legacy/order_service.py"]).
  - reflexivity.
  - repeat constructor; eexists; reflexivity.
Defined.

Lemma checkFiles_first_unreadable (w : World) (pre post : list string)
    (p : string) (e : error) :
  Forall (fun q => exists content, readFileSync w q = Ok content) pre ->
  readFileSync w p = Throw e ->
  forall st, checkFiles w (pre ++ p :: post) st = Throw e.
Proof.
  intros Hpre Hp. induction Hpre as [|q pre [content Hq] _ IH]; intros st.
  - now apply checkFiles_unreadable.
  - simpl. destruct (checkFile_readable w q content st Hq) as [st1 ->].
    apply IH.
Qed.

(** X18.  The first discovered file that cannot be read ends the run: the
    error of [readFileSync] is the uncaught exception, only the three
    opening lines have been written, and neither the files after it nor
    the cross-file analyzers nor the reporter are reached. *)
Theorem first_unreadable_file_ends_the_run (JSON_parse : string -> result json)
    (w : World) (pre post : list string) (p : string) (e : error) :
  getAllFiles (projectRoot w) (tree w) [] = Ok (pre ++ p :: post)%list ->
  Forall (fun q => exists content, readFileSync w q = Ok content) pre ->
  readFileSync w p = Throw e ->
  main JSON_parse w =
  Uncaught e (preamble (projectRoot w) (List.length (pre ++ p :: post))).
Proof.
  intros Hfiles Hpre Hp. unfold main, analyze. rewrite Hfiles.
  now rewrite (checkFiles_first_unreadable w pre post p e Hpre Hp).
Qed.

Lemma first_unreadable_file_ends_the_run_witness :
  main sample_parse
    (mkWorld "/p"
       (Dir [("ok.js", File (Ok "let x = 1"));
             ("locked.js", File (Throw permission_denied));
             ("later.js", File (Ok "let y = 2"))])) =
  Uncaught permission_denied
    (preamble "/p" (List.length (["/p/ok.js"] ++ "/p/locked.js" :: ["/p/later.js"]))).
Proof.
  apply (first_unreadable_file_ends_the_run sample_parse
           (mkWorld "/p"
              (Dir [("ok.js", File (Ok "let x = 1"));
                    ("locked.js", File (Throw permission_denied));
                    ("later.js", File (Ok "let y = 2"))]))
           ["/p/ok.js"] ["/p/later.js"] "/p/locked.js" permission_denied).
  - reflexivity.
  - repeat constructor. eexists. reflexivity.
  - reflexivity.
Defined.

Lemma high_nonempty_status (root : string) (store : IssueStore) :
  high_issues store <> [] -> snd (generateReport root store) = 1.
Proof.
  intros H. rewrite generateReport_status.
  destruct (high_issues store); [now elim H|]. simpl.
  now rewrite Nat.add_succ_r.
Qed.

(** X19.  A project in which no discovered path carries a test marker
    cannot pass: once its files have been analysed, [checkForTests] files
    the no-tests finding under high, nothing after it removes a finding,
    and the run exits with status 1 whatever else was found. *)
Theorem project_without_tests_fails (JSON_parse : string -> result json)
    (w : World) (files : list string) (st1 : State) :
  getAllFiles (projectRoot w) (tree w) [] = Ok files ->
  checkFiles w files initial_state = Ok st1 ->
  filter isTestFile files = [] ->
  exists st,
    analyze JSON_parse w files = Ok st /\
    In noTestsFinding (high_issues (ISSUES st)) /\
    main JSON_parse w =
    Exited 1
      (preamble (projectRoot w) (List.length files) ++
       fst (generateReport (projectRoot w) (ISSUES st)))%list.
Proof.
  intros Hfiles Hcheck Hnone.
  set (st2 := fold_left
                (fun st entry => checkServiceGroup (projectRoot w) entry st)
                (serviceMap (filter isServiceFile files)) st1).
  assert (Han : analyze JSON_parse w files =
                Ok (checkPackageJson JSON_parse w (report high noTestsFinding st2))).
  { unfold analyze. rewrite Hcheck, (checkForDuplicates_ok _ _ _ Hfiles).
    fold st2. unfold checkForTests. rewrite Hfiles, Hnone. reflexivity. }
  destruct (checkPackageJson_grows JSON_parse w (report high noTestsFinding st2)
              high) as [added [Hhigh _]].
  simpl in Hhigh.
  assert (Hin : In noTestsFinding
                  (high_issues
                     (ISSUES (checkPackageJson JSON_parse w
                                (report high noTestsFinding st2))))).
  { rewrite Hhigh. apply in_or_app. left. apply in_or_app. right. now left. }
  eexists. split; [exact Han|]. split; [exact Hin|].
  unfold main. rewrite Hfiles, Han.
  pose proof (high_nonempty_status (projectRoot w)
                (ISSUES (checkPackageJson JSON_parse w
                           (report high noTestsFinding st2)))) as Hstatus.
  destruct (generateReport (projectRoot w) _) as [report_lines status].
  simpl in Hstatus. rewrite Hstatus; [reflexivity|].
  intros Hempty. now rewrite Hempty in Hin.
Qed.

Lemma project_without_tests_fails_witness :
  exists st,
    analyze sample_parse2 good_manifest_world [] = Ok st /\
    In noTestsFinding (high_issues (ISSUES st)) /\
    main sample_parse2 good_manifest_world =
    Exited 1 (preamble "/p" 0 ++ fst (generateReport "/p" (ISSUES st)))%list.
Proof.
  apply (project_without_tests_fails sample_parse2 good_manifest_world []
           initial_state);
    reflexivity.
Defined.

(** X20.  Recording one more finding never improves the verdict: the exit
    status of the report on a store with an additional finding, of
    whatever severity, is at least the status without it. *)
Theorem another_finding_never_lowers_the_status (root : string)
    (store : IssueStore) (sev : Severity) (f : Finding) :
  snd (generateReport root store) <=
  snd (generateReport root (push sev f store)).
Proof.
  rewrite !generateReport_status.
  destruct sev; simpl; rewrite ?length_app; simpl;
    repeat match goal with
           | |- context [?a =? 0] => destruct (Nat.eqb_spec a 0)
           end; lia.
Qed.

(** ** The carried-over [lastIndex] *)

(** X21.  Once the [lastIndex] of a global rule lies beyond the end of a
    line, the rule says nothing about that line, whatever the line holds:
    the test fails without looking at the text and puts [lastIndex] back
    to 0.  So a line shorter than the position at which the rule's match
    on the line before ended is never reported by that rule. *)
Theorem line_shorter_than_lastIndex_is_not_reported (r : Rule.t)
    (lastIndex : nat) (relativePath line : string) (index : nat)
    (store : IssueStore) :
  global (Rule.flags r) = true ->
  String.length line < lastIndex ->
  applyPatterns [r] [lastIndex] relativePath line index store = ([0], store).
Proof.
  intros Hg Hlen. cbn [applyPatterns hd tl]. unfold test.
  now rewrite (exec_past_end _ _ _ _ Hg Hlen).
Qed.

Lemma line_shorter_than_lastIndex_is_not_reported_witness :
  applyPatterns
    [Rule.make (lit "console.log(") flags_g medium
       "console.log found (use proper logging)"]
    [20] "a.js" "console.log(2)" 1 empty_issues = ([0], empty_issues).
Proof.
  apply (line_shorter_than_lastIndex_is_not_reported
           (Rule.make (lit "console.log(") flags_g medium
              "console.log found (use proper logging)")
           20 "a.js" "console.log(2)" 1 empty_issues).
  - reflexivity.
  - simpl. lia.
Defined.

Lemma report_lastIndex (t : Table) (sev : Severity) (f : Finding) (st : State) :
  lastIndex_of t (report sev f st) = lastIndex_of t st.
Proof. now destruct t. Qed.

Lemma if_report_lastIndex (t : Table) (b : bool) (sev : Severity)
    (f : Finding) (st : State) :
  lastIndex_of t (if b then report sev f st else st) = lastIndex_of t st.
Proof. destruct b; [apply report_lastIndex | reflexivity]. Qed.

Lemma forEach_indexed_lastIndex {A : Type} (t : Table)
    (f : A -> nat -> State -> State) (l : list A) :
  (forall x i st, lastIndex_of t (f x i st) = lastIndex_of t st) ->
  forall i st, lastIndex_of t (forEach_indexed f l i st) = lastIndex_of t st.
Proof.
  intros Hf. induction l as [|x l IH]; intros i st; simpl; [reflexivity|].
  now rewrite IH, Hf.
Qed.

Lemma fold_left_lastIndex {A : Type} (t : Table) (f : State -> A -> State)
    (l : list A) :
  (forall st x, lastIndex_of t (f st x) = lastIndex_of t st) ->
  forall st, lastIndex_of t (fold_left f l st) = lastIndex_of t st.
Proof.
  intros Hf. induction l as [|x l IH]; intros st; simpl; [reflexivity|].
  now rewrite IH, Hf.
Qed.

Lemma checkLine_other_table (t t' : Table) (rel line : string) (idx : nat)
    (st : State) :
  t <> t' ->
  lastIndex_of t' (checkLine t rel line idx st) = lastIndex_of t' st.
Proof.
  intros Hne. unfold checkLine.
  destruct (applyPatterns (rules_of t) (lastIndex_of t st) rel line idx
              (ISSUES st)) as [lis store].
  destruct t, t'; try reflexivity; now elim Hne.
Qed.

Lemma Ok_inj {A : Type} (a b : A) : Ok a = Ok b -> a = b.
Proof. intros H. now injection H. Qed.

Lemma structural_checks_lastIndex (t : Table) (fp rel content : string)
    (lines : list string) (st : State) :
  lastIndex_of t (checkPythonFile fp rel content lines st) = lastIndex_of t st /\
  lastIndex_of t (checkHTMLFile fp rel content lines st) = lastIndex_of t st /\
  lastIndex_of t (checkSQLFile fp rel content lines st) = lastIndex_of t st.
Proof.
  repeat split.
  - unfold checkPythonFile. rewrite if_report_lastIndex.
    apply forEach_indexed_lastIndex. intros line i st0.
    destruct (match_fresh no_flags functionDefRegex line); [|reflexivity].
    apply if_report_lastIndex.
  - unfold checkHTMLFile.
    rewrite fold_left_lastIndex
      by (intros; apply if_report_lastIndex).
    rewrite fold_left_lastIndex
      by (intros; apply if_report_lastIndex).
    apply if_report_lastIndex.
  - unfold checkSQLFile. now rewrite !if_report_lastIndex.
Qed.

(** X22.  The pattern tables are independent: analysing a file moves the
    [lastIndex] of the rules of its own table at most.  The rules of every
    other table, and all rules when the file has no table, are left as
    they were; the size checks and the structural checks never touch a
    [lastIndex]. *)
Theorem checkFile_keeps_other_tables (w : World) (filePath : string)
    (st st' : State) (t' : Table) :
  checkFile w filePath st = Ok st' ->
  getPatternsForFile filePath <> Some t' ->
  lastIndex_of t' st' = lastIndex_of t' st.
Proof.
  unfold checkFile. intros Hrun Hother.
  destruct (readFileSync w filePath) as [content|e]; [|discriminate].
  apply Ok_inj in Hrun. subst st'.
  set (rel := replace (projectRoot w ++ "/") "" filePath).
  match goal with
  | |- context [forEach_indexed _ _ 0 ?s] => set (st2 := s)
  end.
  set (st3 := match getPatternsForFile filePath with
              | Some t => forEach_indexed (checkLine t rel) (split LF content) 0 st2
              | None => st2
              end).
  assert (H2 : lastIndex_of t' st2 = lastIndex_of t' st)
    by (unfold st2; now rewrite !if_report_lastIndex).
  assert (H3 : lastIndex_of t' st3 = lastIndex_of t' st).
  { unfold st3. destruct (getPatternsForFile filePath) as [t|]; [|exact H2].
    rewrite forEach_indexed_lastIndex; [exact H2|].
    intros line i st0. apply checkLine_other_table. congruence. }
  destruct (structural_checks_lastIndex t' filePath rel content
              (split LF content) st3) as [Hpy [Hhtml Hsql]].
  destruct (String.eqb (getFileExtension filePath) ".py");
    [now rewrite Hpy|].
  destruct (array_includes [".html"; ".htm"] (getFileExtension filePath));
    [now rewrite Hhtml|].
  destruct (String.eqb (getFileExtension filePath) ".sql");
    [now rewrite Hsql | exact H3].
Qed.

Lemma checkFile_keeps_other_tables_witness :
  lastIndex_of HTML
    (mkState
       (mkIssues [] []
          [mkFinding "a.js" 1 "console.log found (use proper logging)"
             "console.log(1)"] [] [])
       [0; 0; 0; 0] [0; 0; 0; 0; 0; 0] [0; 0; 0; 0; 0; 0; 0]
       [0; 0; 0; 0; 0; 0; 0]) =
  lastIndex_of HTML initial_state.
Proof.
  apply (checkFile_keeps_other_tables two_logs_world "/p/a.js" initial_state
           _ HTML).
  - reflexivity.
  - discriminate.
Defined.

(** ** The listing of the report *)

(** X23.  No finding of the four listed severities is left out of the
    report: the finding at position [k] of the critical, high, medium or
    low bucket is printed on consecutive lines, first the number [k + 1]
    with its file and line, then its message and then, when it has one,
    its code excerpt. *)
Theorem every_listed_finding_is_printed (root : string) (store : IssueStore)
    (sev : Severity) (k : nat) (f : Finding) :
  sev <> info ->
  nth_error (bucket sev store) k = Some f ->
  exists before after,
    fst (generateReport root store) =
    List.app before
      (List.app
         [newline ++ string_of_nat (k + 1) ++ ". " ++ file f ++ ":" ++
          string_of_nat (line f);
          "   " ++ message f]
         (List.app
            (if String.eqb (code f) EmptyString then []
             else ["   Code: " ++ code f])
            after)).
Proof.
  intros Hsev Hnth.
  destruct (generateReport_prints root store sev k f Hsev Hnth)
    as [before [after [Hrep _]]].
  exists before, after. rewrite Hrep, render_issue_lines, <- app_assoc.
  reflexivity.
Qed.

Lemma every_listed_finding_is_printed_witness :
  exists before after,
    fst (generateReport "/p"
           (mkIssues [] [noTestsFinding] [] [] [noPackageJsonFinding])) =
    List.app before
      (List.app
         [newline ++ string_of_nat (0 + 1) ++ ". " ++ file noTestsFinding ++ ":" ++
          string_of_nat (line noTestsFinding);
          "   " ++ message noTestsFinding]
         (List.app
            (if String.eqb (code noTestsFinding) EmptyString then []
             else ["   Code: " ++ code noTestsFinding])
            after)).
Proof.
  apply (every_listed_finding_is_printed "/p"
           (mkIssues [] [noTestsFinding] [] [] [noPackageJsonFinding]) high 0
           noTestsFinding);
    [discriminate | reflexivity].
Defined.

(** ** Discovery composes *)

Lemma getAllFiles_accumulator (node : fsnode) :
  forall dir fileList,
    getAllFiles dir node fileList =
    and_then (getAllFiles dir node [])
      (fun added => Ok (fileList ++ added)%list).
Proof.
  induction node as [c|e| |entries IHe] using fsnode_nested_ind;
    intros dir fileList.
  - reflexivity.
  - reflexivity.
  - simpl. now rewrite app_nil_r.
  - assert (Hgen : forall acc fileList,
              getAllFiles dir (Dir entries) (fileList ++ acc)%list =
              and_then (getAllFiles dir (Dir entries) acc)
                (fun l => Ok (fileList ++ l)%list)).
    { clear fileList.
      induction entries as [|[file child] entries IH]; intros acc fileList.
      - reflexivity.
      - inversion IHe as [|? ? IHchild IHrest]; subst.
        specialize (IH IHrest). rewrite !getAllFiles_cons.
        destruct child as [c|sub|e|].
        + destruct (array_includes SUPPORTED_EXTENSIONS (extname file));
            [rewrite <- app_assoc|]; apply IH.
        + destruct (negb (array_includes SKIPPED_DIRECTORIES file));
            [|apply IH].
          cbn [snd] in IHchild.
          rewrite (IHchild (path_join dir file) (fileList ++ acc)%list).
          rewrite (IHchild (path_join dir file) acc).
          destruct (getAllFiles (path_join dir file) (Dir sub) []) as [l|e];
            simpl; [|reflexivity].
          rewrite <- app_assoc. apply IH.
        + destruct (negb (array_includes SKIPPED_DIRECTORIES file));
            [reflexivity | apply IH].
        + reflexivity. }
    specialize (Hgen [] fileList). now rewrite app_nil_r in Hgen.
Qed.

(** X24.  The list [getAllFiles] is given only ever gets a tail: the
    result for a list [fileList] is the result for the empty list with
    [fileList] in front, and an exception is the same exception. *)
Theorem discovery_appends_to_its_accumulator (node : fsnode) (dir : string)
    (fileList : list string) :
  getAllFiles dir node fileList =
  and_then (getAllFiles dir node [])
    (fun added => Ok (fileList ++ added)%list).
Proof. apply getAllFiles_accumulator. Qed.

(** X25.  Discovery works through a directory entry by entry: the result
    for a listing [first ++ rest] is the result for [rest], started on
    what the entries of [first] gave. *)
Theorem discovery_goes_entry_by_entry (dir : string)
    (first rest : list (string * fsnode)) (fileList : list string) :
  getAllFiles dir (Dir (first ++ rest)) fileList =
  and_then (getAllFiles dir (Dir first) fileList)
    (getAllFiles dir (Dir rest)).
Proof. apply getAllFiles_app. Qed.

(** X26.  A name that the listing of a directory holds and under which
    nothing is found is not passed over: [statSync] throws on it, whatever
    the name, and the exception leaves [getAllFiles] unless an earlier
    entry has thrown already.  In the project root it ends the run after
    the first two lines of output, before any file is analysed. *)
Theorem missing_entry_ends_discovery :
  (forall dir name pre post fileList,
     getAllFiles dir (Dir (pre ++ (name, Gone) :: post)) fileList =
     and_then (getAllFiles dir (Dir pre) fileList)
       (fun _ => Throw (statSync_ENOENT (path_join dir name)))) /\
  (forall (JSON_parse : string -> result json) root name pre post,
     main JSON_parse (mkWorld root (Dir (pre ++ (name, Gone) :: post))) =
     Uncaught
       (match getAllFiles root (Dir pre) [] with
        | Ok _ => statSync_ENOENT (path_join root name)
        | Throw e => e
        end)
       ["Running code quality checks..." ++ newline;
        "Scanning project: " ++ root ++ newline]).
Proof.
  split.
  - intros. apply getAllFiles_missing_entry.
  - intros JSON_parse root name pre post. unfold main.
    cbn [projectRoot tree]. rewrite getAllFiles_missing_entry.
    destruct (getAllFiles root (Dir pre) []); reflexivity.
Qed.
